(** * railway_simple_app.py: the startup script of the SENAI application

    A shallow embedding of [src/railway_simple_app.py] (the module body up
    to the [__main__] guard) and the properties of its startup sequence.

    The script is straight-line Python with [try]/[except] blocks around
    calls into Flask, SQLAlchemy and the sibling modules [models] and
    [routes].  It is embedded in a state-and-exception monad:

    - the interpreter state records the log, the external calls attempted,
      the fields of [app] that the script assigns, whether the global name
      [User] is bound, the pending objects of [db.session] and the rows of
      the user table (the only state that survives a process restart);
    - an external call either returns or raises an instance of [Exception];
      which one happens is read from a [world], one field per call site;
    - [sys.exit] is a third outcome that no [except Exception] intercepts;
    - a call into a collaborator changes the recorded state only as the
      script itself says: [db.session.commit()] turns the pending objects
      into rows, nothing else touches the user table.

    A call can also raise a [BaseException] outside [Exception]
    ([SystemExit], [KeyboardInterrupt]), which the [except Exception] blocks
    of the script let through.  The module [Full] is the script with this
    further way for every recorded statement to end; its runs are the runs
    of the script cut at the first statement that raises so.  The properties
    of the data the script stores are stated on the script; those that turn
    on what a failing call does to the rest of the run are stated on
    [Full]. *)

From Stdlib Require Import ZArith Lia DecimalString.
From stdpp Require Import base option strings list gmap.

Local Open Scope Z_scope.

(** ** Python strings *)

(** A [str] is held as the sequence of the bytes of its UTF-8 encoding; the
    strings the script compares with are ASCII, for which prefixes and
    occurrences are the same on bytes and on code points. *)

Module PyStr.

(** [s.startswith(p)] *)
Fixpoint startswith (s p : string) {struct p} : bool :=
  match p with
  | EmptyString => true
  | String a p' =>
      match s with
      | EmptyString => false
      | String b s' => if Ascii.eqb a b then startswith s' p' else false
      end
  end.

(** [s[n:]] *)
Fixpoint drop (n : nat) (s : string) : string :=
  match n with
  | O => s
  | S k => match s with
           | EmptyString => EmptyString
           | String _ s' => drop k s'
           end
  end.

(** [s.replace(old, new, count)] for a non-empty [old]: the leftmost
    [count] occurrences, scanned left to right without overlap.  [skip]
    counts the characters of a matched occurrence still to be passed. *)
Fixpoint replace_from (old new : string) (count skip : nat) (s : string)
  : string :=
  match s with
  | EmptyString => EmptyString
  | String c s' =>
      match skip with
      | S k => replace_from old new count k s'
      | O =>
          match count with
          | O => s
          | S n =>
              if startswith s old
              then new +:+ replace_from old new n (String.length old - 1) s'
              else String c (replace_from old new count 0 s')
          end
      end
  end.

Definition replace (s old new : string) (count : nat) : string :=
  replace_from old new count 0 s.

(** Truth value of a string: only the empty string is false. *)
Definition truthy (s : string) : bool :=
  match s with
  | EmptyString => false
  | String _ _ => true
  end.

End PyStr.

(** ** Exceptions, outcomes and the interpreter monad *)

(** An instance of [Exception]: its class name and [str(e)]. *)
Record exn := Exn { exn_class : string; exn_str : string }.

Definition NameError (name : string) : exn :=
  Exn "NameError" ("name '" +:+ name +:+ "' is not defined").

Inductive outcome (A : Type) :=
| Returned (a : A)
| Raised (e : exn)
| Exited (code : Z).
Arguments Returned {A} a.
Arguments Raised {A} e.
Arguments Exited {A} code.

Inductive level := INFO | WARNING | ERROR.

Inductive log_entry :=
| Log (lvl : level) (msg : string)
| LogTraceback (e : exn).              (* logging.error(traceback.format_exc()) *)

Inductive cfg_val :=
| CStr (s : string)
| CBool (b : bool)
| CInt (n : Z).

Global Instance cfg_val_eq_dec : EqDecision cfg_val.
Proof. solve_decision. Defined.

(** Statements that act outside the script, recorded when attempted. *)
Inductive event :=
| EvImportFlask | EvImportProxyFix | EvImportDb
| EvFlask                               (* Flask(__name__) *)
| EvSecretKey | EvProxyFix
| EvDbConfig
| EvDbInitApp                           (* db.init_app(app) *)
| EvRouteHealth                         (* @app.route('/health') *)
| EvAppContext                          (* with app.app_context() *)
| EvConnect                             (* db.engine.connect() *)
| EvImportModels | EvCreateAll
| EvQueryAdmin | EvNewUser | EvSetPassword | EvSessionAdd | EvCommit
| EvImportFlaskLogin | EvImportFlaskMail
| EvLoginManager
| EvMailConfig | EvMailInit
| EvMakedirs (path : cfg_val)            (* os.makedirs(path, exist_ok=True) *)
| EvImportRoutes.

Global Instance event_eq_dec : EqDecision event.
Proof. solve_decision. Defined.

(** The credential stored by [set_password]: the one-way image of the
    plaintext, kept symbolic. *)
Inductive credential := PasswordHash (plaintext : string).

(** Modelled from the spec: the [User] entity of the [models] module, which
    is not part of the sources: "a database-mapped User entity with
    username, name, role, email, and a password-setting operation".  A
    fresh [User()] has every attribute unset. *)
Record User := mkUser {
  username : option string;
  name : option string;
  role : option string;
  email : option string;
  password_hash : option credential
}.

Record state := mkState {
  logs : list log_entry;
  trace : list event;
  app_created : bool;
  secret_key : option string;           (* app.secret_key *)
  config : gmap string cfg_val;         (* app.config, the keys read back *)
  url_rules : list string;              (* rules registered on app *)
  login_view : option string;
  user_bound : bool;                    (* is the global [User] bound *)
  session : list User;                  (* db.session, pending objects *)
  rows : list User                      (* the user table *)
}.

Definition M (A : Type) : Type := state -> outcome A * state.

Definition ret {A} (a : A) : M A := fun st => (Returned a, st).

Definition bind {A B} (c : M A) (k : A -> M B) : M B :=
  fun st =>
    match c st with
    | (Returned a, st') => k a st'
    | (Raised e, st') => (Raised e, st')
    | (Exited n, st') => (Exited n, st')
    end.

Definition raise {A} (e : exn) : M A := fun st => (Raised e, st).

(** [sys.exit(code)] *)
Definition sys_exit {A} (code : Z) : M A := fun st => (Exited code, st).

(** [try: body  except Exception as e: handler e] *)
Definition try_except {A} (body : M A) (handler : exn -> M A) : M A :=
  fun st =>
    match body st with
    | (Raised e, st') => handler e st'
    | r => r
    end.

Declare Scope py_scope.
Delimit Scope py_scope with py.
Notation "x <- c ;; k" := (bind c (fun x => k))
  (at level 100, c at next level, k at level 200, right associativity)
  : py_scope.
Notation "c ;; k" := (bind c (fun _ => k))
  (at level 100, k at level 200, right associativity) : py_scope.
Local Open Scope py_scope.

Definition exec {A} (c : M A) (st : state) : state := snd (c st).
Definition result {A} (c : M A) (st : state) : outcome A := fst (c st).

(** ** State updates *)

Definition add_log (l : log_entry) (st : state) : state :=
  mkState (logs st ++ [l]) (trace st) (app_created st) (secret_key st)
          (config st) (url_rules st) (login_view st) (user_bound st)
          (session st) (rows st).

Definition add_event (ev : event) (st : state) : state :=
  mkState (logs st) (trace st ++ [ev]) (app_created st) (secret_key st)
          (config st) (url_rules st) (login_view st) (user_bound st)
          (session st) (rows st).

Definition set_app_created (st : state) : state :=
  mkState (logs st) (trace st) true (secret_key st)
          (config st) (url_rules st) (login_view st) (user_bound st)
          (session st) (rows st).

Definition set_secret_key (k : string) (st : state) : state :=
  mkState (logs st) (trace st) (app_created st) (Some k)
          (config st) (url_rules st) (login_view st) (user_bound st)
          (session st) (rows st).

Definition set_config (k : string) (v : cfg_val) (st : state) : state :=
  mkState (logs st) (trace st) (app_created st) (secret_key st)
          (<[k := v]> (config st)) (url_rules st) (login_view st)
          (user_bound st) (session st) (rows st).

Definition add_url_rule (r : string) (st : state) : state :=
  mkState (logs st) (trace st) (app_created st) (secret_key st)
          (config st) (url_rules st ++ [r]) (login_view st) (user_bound st)
          (session st) (rows st).

Definition set_login_view (v : string) (st : state) : state :=
  mkState (logs st) (trace st) (app_created st) (secret_key st)
          (config st) (url_rules st) (Some v) (user_bound st)
          (session st) (rows st).

Definition set_user_bound (b : bool) (st : state) : state :=
  mkState (logs st) (trace st) (app_created st) (secret_key st)
          (config st) (url_rules st) (login_view st) b
          (session st) (rows st).

Definition set_session (s : list User) (st : state) : state :=
  mkState (logs st) (trace st) (app_created st) (secret_key st)
          (config st) (url_rules st) (login_view st) (user_bound st)
          s (rows st).

Definition set_rows (r : list User) (st : state) : state :=
  mkState (logs st) (trace st) (app_created st) (secret_key st)
          (config st) (url_rules st) (login_view st) (user_bound st)
          (session st) r.

Definition modify (f : state -> state) : M unit :=
  fun st => (Returned tt, f st).

Definition get {X} (f : state -> X) : M X :=
  fun st => (Returned (f st), st).

(** ** Logging and external calls *)

Definition logging_info (msg : string) : M unit := modify (add_log (Log INFO msg)).
Definition logging_warning (msg : string) : M unit := modify (add_log (Log WARNING msg)).
Definition logging_error (msg : string) : M unit := modify (add_log (Log ERROR msg)).
Definition logging_traceback (e : exn) : M unit := modify (add_log (LogTraceback e)).

(** An external call: recorded when attempted, then it returns or raises
    an instance of [Exception] as the world says.  What it does when it
    raises outside [Exception] is in [Full.call]. *)
Definition call (ev : event) (fails : option exn) : M unit :=
  modify (add_event ev) ;;
  match fails with
  | Some e => raise e
  | None => ret tt
  end.

(** [os.environ.get(key, default)] *)
Definition environ_get (environ : gmap string string) (key default : string)
  : string :=
  match environ !! key with
  | Some v => v
  | None => default
  end.

(** [app.config[key]] *)
Definition config_getitem (key : string) : M cfg_val :=
  c <- get config ;;
  match c !! key with
  | Some v => ret v
  | None => raise (Exn "KeyError" ("'" +:+ key +:+ "'"))
  end.

(** ** The world: what each external call does in one process start *)

(** [from models import User, Teacher, Course, Evaluator, Evaluation] binds
    the names one by one; when it raises, [User] may already be bound. *)
Inductive import_result :=
| ImportOk
| ImportFailed (e : exn) (user_was_bound : bool).

Record world := mkWorld {
  w_import_flask : option exn;
  w_import_proxyfix : option exn;
  w_import_db : option exn;
  w_db_init_app : option exn;
  w_engine_connect : option exn;
  w_import_models : import_result;
  w_create_all : option exn;
  w_query_admin : option exn;
  w_new_user : option exn;
  w_set_password : option exn;
  w_session_add : option exn;
  w_commit : option exn;
  w_import_flask_login : option exn;
  w_import_flask_mail : option exn;
  w_login_manager : option exn;
  w_mail_config : option exn;
  w_mail_init : option exn;
  w_makedirs : option exn;
  w_import_routes : option exn
}.

(** ** The script *)

(** Lines 20-32. *)
Definition import_guard (w : world) : M unit :=
  try_except
    (call EvImportFlask (w_import_flask w) ;;
     logging_info "✅ Flask imported" ;;
     call EvImportProxyFix (w_import_proxyfix w) ;;
     logging_info "✅ ProxyFix imported" ;;
     call EvImportDb (w_import_db w) ;;
     logging_info "✅ Database imported")
    (fun e =>
       logging_error ("❌ Import error: " +:+ exn_str e) ;;
       sys_exit 1).

(** Lines 35-36. *)
Definition create_app : M unit :=
  modify (add_event EvFlask) ;;
  modify set_app_created ;;
  logging_info "✅ Flask app created".

(** Lines 39-41. *)
Definition basic_config (environ : gmap string string) : M unit :=
  modify (add_event EvSecretKey) ;;
  modify (set_secret_key (environ_get environ "SESSION_SECRET" "railway-key-2024")) ;;
  modify (add_event EvProxyFix) ;;
  logging_info "✅ Basic config set".

(** Lines 44-50: the value bound to [database_url].  [not database_url]
    holds for [None] (variable unset) and for the empty string. *)
Definition resolve_database_url (environ : gmap string string) : M string :=
  let fallback :=
    logging_warning "Using SQLite fallback" ;; ret "sqlite:///test.db" in
  database_url <-
    match environ !! "DATABASE_URL" with
    | None => fallback
    | Some url => if negb (PyStr.truthy url) then fallback else ret url
    end ;;
  if PyStr.startswith database_url "postgres://"
  then ret (PyStr.replace database_url "postgres://" "postgresql://" 1)
  else ret database_url.

(** Lines 44-54. *)
Definition database_config (environ : gmap string string) : M unit :=
  database_url <- resolve_database_url environ ;;
  modify (add_event EvDbConfig) ;;
  modify (set_config "SQLALCHEMY_DATABASE_URI" (CStr database_url)) ;;
  modify (set_config "SQLALCHEMY_TRACK_MODIFICATIONS" (CBool false)) ;;
  logging_info "✅ Database config set".

(** Lines 57-61. *)
Definition init_database (w : world) : M unit :=
  try_except
    (call EvDbInitApp (w_db_init_app w) ;;
     logging_info "✅ Database initialized")
    (fun e => logging_error ("❌ Database init failed: " +:+ exn_str e)).

(** Line 64: the decorator registers the handler on [app]. *)
Definition register_health : M unit :=
  modify (add_event EvRouteHealth) ;;
  modify (add_url_rule "/health").

(** Lines 81-85. *)
Definition test_connection (w : world) : M unit :=
  try_except
    (call EvConnect (w_engine_connect w) ;;
     logging_info "✅ Database connection OK")
    (fun e => logging_error ("❌ Database connection failed: " +:+ exn_str e)).

(** Line 90. *)
Definition import_models (r : import_result) : M unit :=
  modify (add_event EvImportModels) ;;
  match r with
  | ImportOk => modify (set_user_bound true)
  | ImportFailed e bound =>
      (if bound then modify (set_user_bound true) else ret tt) ;;
      raise e
  end.

(** Lines 88-96. *)
Definition create_tables (w : world) : M unit :=
  try_except
    (import_models (w_import_models w) ;;
     logging_info "✅ Models imported" ;;
     call EvCreateAll (w_create_all w) ;;
     logging_info "✅ Database tables created")
    (fun e => logging_error ("❌ Table creation failed: " +:+ exn_str e)).

Definition has_username (u : string) (r : User) : bool :=
  bool_decide (username r = Some u).

(** [User.query.filter_by(username=u).first()]: evaluating the name [User]
    comes first and raises [NameError] when the import of line 90 did not
    bind it. *)
Definition query_first_by_username (w : world) (u : string)
  : M (option User) :=
  modify (add_event EvQueryAdmin) ;;
  bound <- get user_bound ;;
  if negb bound then raise (NameError "User") else
  match w_query_admin w with
  | Some e => raise e
  | None => table <- get rows ;; ret (find (has_username u) table)
  end.

(** [db.session.add(obj)] *)
Definition session_add (w : world) (obj : User) : M unit :=
  call EvSessionAdd (w_session_add w) ;;
  modify (fun st => set_session (session st ++ [obj]) st).

(** [db.session.commit()]: the pending objects become rows, or the
    transaction fails and the table is as before. *)
Definition session_commit (w : world) : M unit :=
  modify (add_event EvCommit) ;;
  match w_commit w with
  | Some e => raise e
  | None => modify (fun st => set_session [] (set_rows (rows st ++ session st) st))
  end.

(** The object built by lines 102-107. *)
Definition admin_account : User :=
  mkUser (Some "edson.lemes") (Some "Edson Lemes") (Some "admin")
         (Some "edson.lemes@senai.br") (Some (PasswordHash "senai103103")).

(** Lines 99-112.  A [User] instance is true in a boolean context, so
    [not admin_user] holds exactly when the query found no row. *)
Definition create_admin_user (w : world) : M unit :=
  try_except
    (admin_user <- query_first_by_username w "edson.lemes" ;;
     match admin_user with
     | Some _ => ret tt
     | None =>
         call EvNewUser (w_new_user w) ;;
         let admin_user := mkUser None None None None None in
         let admin_user :=
           mkUser (Some "edson.lemes") (name admin_user) (role admin_user)
                  (email admin_user) (password_hash admin_user) in
         let admin_user :=
           mkUser (username admin_user) (Some "Edson Lemes") (role admin_user)
                  (email admin_user) (password_hash admin_user) in
         let admin_user :=
           mkUser (username admin_user) (name admin_user) (Some "admin")
                  (email admin_user) (password_hash admin_user) in
         let admin_user :=
           mkUser (username admin_user) (name admin_user) (role admin_user)
                  (Some "edson.lemes@senai.br") (password_hash admin_user) in
         call EvSetPassword (w_set_password w) ;;
         let admin_user :=
           mkUser (username admin_user) (name admin_user) (role admin_user)
                  (email admin_user) (Some (PasswordHash "senai103103")) in
         session_add w admin_user ;;
         session_commit w ;;
         logging_info "✅ Admin user created"
     end)
    (fun e => logging_error ("❌ Admin user creation failed: " +:+ exn_str e)).

(** Lines 115-161.  One [try] covers the login manager, the mail settings,
    the upload directory and the route import.  The mail settings of the
    [app.config.update] call are computed from the environment ([int] of
    MAIL_PORT may raise); that evaluation is the call [EvMailConfig], and of
    the keys it sets only the two literal ones are recorded. *)
Definition configure_extensions (w : world) : M unit :=
  try_except
    (call EvImportFlaskLogin (w_import_flask_login w) ;;
     call EvImportFlaskMail (w_import_flask_mail w) ;;
     call EvLoginManager (w_login_manager w) ;;
     modify (set_login_view "login") ;;
     logging_info "✅ Login manager configured" ;;
     call EvMailConfig (w_mail_config w) ;;
     modify (set_config "UPLOAD_FOLDER" (CStr "/tmp/uploads")) ;;
     modify (set_config "MAX_CONTENT_LENGTH" (CInt (16 * 1024 * 1024))) ;;
     call EvMailInit (w_mail_init w) ;;
     logging_info "✅ Mail configured" ;;
     upload_folder <- config_getitem "UPLOAD_FOLDER" ;;
     call (EvMakedirs upload_folder) (w_makedirs w) ;;
     logging_info "✅ Upload folder created" ;;
     call EvImportRoutes (w_import_routes w) ;;
     logging_info "✅ SENAI routes imported successfully")
    (fun e =>
       logging_error ("❌ Extensions setup failed: " +:+ exn_str e) ;;
       logging_traceback e).

(** Lines 76-168. *)
Definition initialize_in_app_context (w : world) : M unit :=
  modify (add_event EvAppContext) ;;
  try_except
    (logging_info "🔧 Initializing in app context..." ;;
     test_connection w ;;
     create_tables w ;;
     create_admin_user w ;;
     configure_extensions w ;;
     logging_info "🎉 APPLICATION READY!")
    (fun e =>
       logging_error ("❌ App context initialization failed: " +:+ exn_str e) ;;
       logging_traceback e).

(** The module body, lines 18-168. *)
Definition railway_simple_app (w : world) (environ : gmap string string)
  : M unit :=
  logging_info "🚀 STARTING RAILWAY APP..." ;;
  import_guard w ;;
  create_app ;;
  basic_config environ ;;
  database_config environ ;;
  init_database w ;;
  register_health ;;
  initialize_in_app_context w.

(** A fresh interpreter attached to a database whose user table holds
    [table]. *)
Definition initial_state (table : list User) : state :=
  mkState [] [] false None ∅ [] None false [] table.

Definition process_start (w : world) (environ : gmap string string)
    (table : list User) : outcome unit * state :=
  railway_simple_app w environ (initial_state table).

(** Successive process starts against the same database: each start has
    its own world and environment, the table is carried over. *)
Fixpoint restarts (runs : list (world * gmap string string))
    (table : list User) : list User :=
  match runs with
  | [] => table
  | (w, environ) :: runs' =>
      restarts runs' (rows (snd (process_start w environ table)))
  end.

(** The world in which every external call returns. *)
Definition all_ok : world :=
  mkWorld None None None None None ImportOk None None None None None None
          None None None None None None None.

(** ** The liveness endpoint *)

Record response := mkResponse {
  resp_json : gmap string string;
  resp_mimetype : string
}.

(** The payloads of lines 69 and 71. *)
Definition healthy_payload : gmap string string :=
  {[ "status" := "healthy"; "app" := "running" ]}.

Definition unhealthy_payload (error : string) : gmap string string :=
  {[ "status" := "unhealthy"; "error" := error ]}.

(** Lines 65-71, over the [jsonify] it calls. *)
Definition health_with (jsonify : gmap string string -> M response)
  : M (response * Z) :=
  try_except
    (r <- jsonify healthy_payload ;; ret (r, 200))
    (fun e => r <- jsonify (unhealthy_payload (exn_str e)) ;; ret (r, 500)).

(** What a call does when it does not return: it raises an instance of
    [Exception], or a [BaseException] outside [Exception] ([SystemExit],
    [KeyboardInterrupt]), with which the process ends with status [code]
    unless a bare [except] intercepts it. *)
Inductive failure :=
| Fails (e : exn)
| Aborts (code : Z).

(** Modelled from the spec: Flask's [jsonify], imported on line 21 and not
    part of the sources.  The spec gives the response as the JSON object
    itself ("200 {status: healthy, app: running}"): when [jsonify] returns,
    the response carries the dictionary it was given.  [fault] says for
    which payloads it does not return, and how. *)
Definition jsonify_with_fault (fault : gmap string string -> option failure)
    (d : gmap string string) : M response :=
  match fault d with
  | Some (Fails e) => raise e
  | Some (Aborts code) => sys_exit code
  | None => ret (mkResponse d "application/json")
  end.

(** ** Steps of the startup sequence *)

(** The non-fatal steps, in the order the spec lists them. *)
Inductive step :=
| DbInit | Probe | Tables | Seed | Login | Mail | Upload | Routes.

Definition step_index (s : step) : nat :=
  match s with
  | DbInit => 0 | Probe => 1 | Tables => 2 | Seed => 3
  | Login => 4 | Mail => 5 | Upload => 6 | Routes => 7
  end%nat.

Definition step_before (s s' : step) : bool :=
  (step_index s <? step_index s')%nat.

(** The first statement of each step. *)
Definition entry (s : step) : event :=
  match s with
  | DbInit => EvDbInitApp
  | Probe => EvConnect
  | Tables => EvImportModels
  | Seed => EvQueryAdmin
  | Login => EvLoginManager
  | Mail => EvMailConfig
  | Upload => EvMakedirs (CStr "/tmp/uploads")
  | Routes => EvImportRoutes
  end.

(** The statement [ev] was attempted in a run with record [tr]. *)
Definition attempted (ev : event) (tr : list event) : bool :=
  bool_decide (ev ∈ tr).

(** A step executes in a run when its first statement is attempted. *)
Definition executed (s : step) (tr : list event) : bool :=
  attempted (entry s) tr.

Definition ok (o : option exn) : bool :=
  match o with None => true | Some _ => false end.

(** No call of the step raises. *)
Definition quiet (s : step) (w : world) : bool :=
  match s with
  | DbInit => ok (w_db_init_app w)
  | Probe => ok (w_engine_connect w)
  | Tables =>
      match w_import_models w with
      | ImportOk => ok (w_create_all w)
      | ImportFailed _ _ => false
      end
  | Seed =>
      ok (w_query_admin w) && ok (w_new_user w) && ok (w_set_password w)
      && ok (w_session_add w) && ok (w_commit w)
  | Login => ok (w_login_manager w)
  | Mail => ok (w_mail_config w) && ok (w_mail_init w)
  | Upload => ok (w_makedirs w)
  | Routes => ok (w_import_routes w)
  end.

(** The three foundational imports of lines 21-27 succeed. *)
Definition imports_ok (w : world) : bool :=
  ok (w_import_flask w) && ok (w_import_proxyfix w) && ok (w_import_db w).

(** The imports of lines 116-117 succeed. *)
Definition extension_imports_ok (w : world) : bool :=
  ok (w_import_flask_login w) && ok (w_import_flask_mail w).

(** At most the step [s] raises. *)
Definition only_raises (s : step) (w : world) : Prop :=
  imports_ok w = true /\ extension_imports_ok w = true /\
  forall s', s' <> s -> quiet s' w = true.

(** The step has a [try] of its own (lines 57, 81, 88, 99); the other four
    share the [try] of line 115. *)
Definition own_guard (s : step) : bool :=
  match s with
  | DbInit | Probe | Tables | Seed => true
  | Login | Mail | Upload | Routes => false
  end.

(** The world in which the first call of step [s] raises [e] and every
    other call returns. *)
Definition inject (s : step) (e : exn) : world :=
  match s with
  | DbInit => mkWorld None None None (Some e) None ImportOk None None None None None None None None None None None None None
  | Probe => mkWorld None None None None (Some e) ImportOk None None None None None None None None None None None None None
  | Tables => mkWorld None None None None None (ImportFailed e false) None None None None None None None None None None None None None
  | Seed => mkWorld None None None None None ImportOk None (Some e) None None None None None None None None None None None
  | Login => mkWorld None None None None None ImportOk None None None None None None None None (Some e) None None None None
  | Mail => mkWorld None None None None None ImportOk None None None None None None None None None (Some e) None None None
  | Upload => mkWorld None None None None None ImportOk None None None None None None None None None None None (Some e) None
  | Routes => mkWorld None None None None None ImportOk None None None None None None None None None None None None (Some e)
  end.

(** The ten responsibilities of the spec's system overview, by number, and
    the statements that carry each out.  The foundational imports and the
    entry into the application context belong to none of them. *)
Definition step_of_event (ev : event) : option nat :=
  match ev with
  | EvImportFlask | EvImportProxyFix | EvImportDb | EvAppContext => None
  | EvFlask | EvSecretKey | EvProxyFix => Some 1
  | EvDbConfig => Some 2
  | EvDbInitApp => Some 3
  | EvConnect => Some 4
  | EvImportModels | EvCreateAll => Some 5
  | EvQueryAdmin | EvNewUser | EvSetPassword | EvSessionAdd | EvCommit => Some 6
  | EvImportFlaskLogin | EvImportFlaskMail | EvLoginManager
  | EvMailConfig | EvMailInit => Some 7
  | EvMakedirs _ => Some 8
  | EvImportRoutes => Some 9
  | EvRouteHealth => Some 10
  end%nat.

(** Collapse runs of equal neighbours. *)
Fixpoint squash (l : list nat) : list nat :=
  match l with
  | [] => []
  | a :: l' =>
      match l' with
      | b :: _ => if (a =? b)%nat then squash l' else a :: squash l'
      | [] => [a]
      end
  end.

(** The order in which a run carries out the numbered steps. *)
Definition step_sequence (tr : list event) : list nat :=
  squash (omap step_of_event tr).

(** The messages logged at level ERROR. *)
Definition error_messages (l : list log_entry) : list string :=
  omap (fun entry => match entry with
                     | Log ERROR msg => Some msg
                     | _ => None
                     end) l.

(** Number of accounts with the given username. *)
Definition count_username (u : string) (table : list User) : nat :=
  length (filter (fun r => has_username u r = true) table).

(** ** Vocabulary of the proofs *)

(** A statement that always runs to its end. *)
Definition completes (c : M unit) : Prop :=
  forall st, result c st = Returned tt.

(** A statement that leaves an observation of the state as it was. *)
Definition preserves {X A} (f : state -> X) (c : M A) : Prop :=
  forall st, f (exec c st) = f st.

(** Observations that logging and the record of calls do not touch. *)
Class Quiet_obs {X} (f : state -> X) : Prop := {
  obs_log : forall l st, f (add_log l st) = f st;
  obs_event : forall ev st, f (add_event ev st) = f st
}.

(** A statement that never leaves through [sys.exit]. *)
Definition never_exits {A} (c : M A) : Prop :=
  forall st n, result c st <> Exited n.

(** A block that adds exactly the calls [evs] to the record. *)
Definition emits (c : M unit) (evs : list event) : Prop :=
  forall st, trace (exec c st) = trace st ++ evs.

(** Running blocks one after the other, each from the state the previous
    one left. *)
Definition run_all (blocks : list (M unit)) (st : state) : state :=
  fold_left (fun st c => exec c st) blocks st.

(** The statements inside the [try] of line 77. *)
Definition context_blocks (w : world) : list (M unit) :=
  [ logging_info "🔧 Initializing in app context...";
    test_connection w;
    create_tables w;
    create_admin_user w;
    configure_extensions w;
    logging_info "🎉 APPLICATION READY!" ].

(** The statements of the module body. *)
Definition startup_blocks (w : world) (environ : gmap string string)
  : list (M unit) :=
  [ logging_info "🚀 STARTING RAILWAY APP...";
    import_guard w;
    create_app;
    basic_config environ;
    database_config environ;
    init_database w;
    register_health;
    modify (add_event EvAppContext) ] ++ context_blocks w.

(** The module body cut before the table creation, before the admin
    seeding, and after it. *)
Definition blocks_before_tables (w : world) (environ : gmap string string)
  : list (M unit) :=
  [ logging_info "🚀 STARTING RAILWAY APP..."; import_guard w; create_app;
    basic_config environ; database_config environ; init_database w;
    register_health; modify (add_event EvAppContext);
    logging_info "🔧 Initializing in app context..."; test_connection w ].

Definition blocks_before_seeding (w : world) (environ : gmap string string)
  : list (M unit) :=
  [ logging_info "🚀 STARTING RAILWAY APP..."; import_guard w; create_app;
    basic_config environ; database_config environ; init_database w;
    register_health; modify (add_event EvAppContext);
    logging_info "🔧 Initializing in app context..."; test_connection w;
    create_tables w ].

Definition blocks_after_seeding (w : world) : list (M unit) :=
  [ configure_extensions w; logging_info "🎉 APPLICATION READY!" ].

(** [app.config["SQLALCHEMY_DATABASE_URI"]] *)
Definition database_uri (st : state) : option cfg_val :=
  config st !! "SQLALCHEMY_DATABASE_URI".

(** The calls of lines 21-27. *)
Definition foundational_import (ev : event) : Prop :=
  ev = EvImportFlask \/ ev = EvImportProxyFix \/ ev = EvImportDb.

(** Calls made one after the other until one raises. *)
Fixpoint until_failure (calls : list (event * option exn)) : list event :=
  match calls with
  | [] => []
  | (ev, None) :: calls' => ev :: until_failure calls'
  | (ev, Some _) :: _ => [ev]
  end.

(** The exception of a failed import of the models, and whether [User] is
    bound after the import statement. *)
Definition import_failure (r : import_result) : option exn :=
  match r with
  | ImportOk => None
  | ImportFailed e _ => Some e
  end.

Definition bound_after_import (r : import_result) : bool :=
  match r with
  | ImportOk => true
  | ImportFailed _ bound => bound
  end.

(** The calls of the table-creation block, of the admin-seeding block
    entered with [User] bound or not against a given table, and of the
    extension block. *)
Definition tables_events (w : world) : list event :=
  until_failure [ (EvImportModels, import_failure (w_import_models w));
                  (EvCreateAll, w_create_all w) ].

Definition seeding_events (w : world) (bound : bool) (table : list User)
  : list event :=
  EvQueryAdmin ::
  if bound then
    match w_query_admin w with
    | Some _ => []
    | None =>
        match find (has_username "edson.lemes") table with
        | Some _ => []
        | None =>
            until_failure [ (EvNewUser, w_new_user w);
                            (EvSetPassword, w_set_password w);
                            (EvSessionAdd, w_session_add w);
                            (EvCommit, w_commit w) ]
        end
    end
  else [].

Definition extension_events (w : world) : list event :=
  until_failure [ (EvImportFlaskLogin, w_import_flask_login w);
                  (EvImportFlaskMail, w_import_flask_mail w);
                  (EvLoginManager, w_login_manager w);
                  (EvMailConfig, w_mail_config w);
                  (EvMailInit, w_mail_init w);
                  (EvMakedirs (CStr "/tmp/uploads"), w_makedirs w);
                  (EvImportRoutes, w_import_routes w) ].

(** The calls of a run that passes the import guard. *)
Definition startup_trace (w : world) (table : list User) : list event :=
  [ EvImportFlask; EvImportProxyFix; EvImportDb; EvFlask; EvSecretKey;
    EvProxyFix; EvDbConfig; EvDbInitApp; EvRouteHealth; EvAppContext;
    EvConnect ]
  ++ tables_events w
  ++ seeding_events w (bound_after_import (w_import_models w)) table
  ++ extension_events w.

(** The steps with a [try] of their own are always reached; a step of the
    extension block is reached when nothing before it in the block raised. *)
Definition reached (s : step) (w : world) : bool :=
  match s with
  | DbInit | Probe | Tables | Seed => true
  | Login => extension_imports_ok w
  | Mail => extension_imports_ok w && quiet Login w
  | Upload => extension_imports_ok w && quiet Login w && quiet Mail w
  | Routes =>
      extension_imports_ok w && quiet Login w && quiet Mail w
      && quiet Upload w
  end.

(** ** The user loader and the development entry point *)

(** [try: body  except: handler]: a bare [except] also intercepts
    [SystemExit]. *)
Definition try_bare {A} (body : M A) (handler : M A) : M A :=
  fun st =>
    match body st with
    | (Returned a, st') => (Returned a, st')
    | (_, st') => handler st'
    end.

(** Lines 126-130.  [py_int] is the builtin [int] on strings, a value or the
    exception it raises; [query_get] is [User.query.get].  The name [User]
    is evaluated first, then the argument, then the call. *)
Definition load_user (py_int : string -> exn + Z)
    (query_get : Z -> M (option User)) (user_id : string)
  : M (option User) :=
  try_bare
    (bound <- get user_bound ;;
     if negb bound then raise (NameError "User") else
     match py_int user_id with
     | inl e => raise e
     | inr n => query_get n
     end)
    (ret None).

(** [str(n)] for an integer. *)
Definition str_of_Z (n : Z) : string :=
  NilEmpty.string_of_int (Z.to_int n).

(** The arguments of [app.run]. *)
Record server := mkServer { host : string; port : Z; debug : bool }.

(** Lines 171-173.  [os.environ.get('PORT', 5000)] is the integer 5000 when
    the variable is unset and its text otherwise; [app_run] is [app.run]. *)
Definition main_block (py_int : string -> exn + Z)
    (app_run : server -> M unit) (environ : gmap string string) : M unit :=
  port <-
    match environ !! "PORT" with
    | None => ret 5000
    | Some text =>
        match py_int text with
        | inl e => raise e
        | inr n => ret n
        end
    end ;;
  logging_info ("🚀 Starting on port " +:+ str_of_Z port) ;;
  app_run (mkServer "0.0.0.0" port false).

(** The whole file: the module body, then the block under
    [if __name__ == '__main__']. *)
Definition module_run (name_is_main : bool) (py_int : string -> exn + Z)
    (app_run : server -> M unit) (w : world)
    (environ : gmap string string) : M unit :=
  railway_simple_app w environ ;;
  if name_is_main then main_block py_int app_run environ else ret tt.

(** ** Vocabulary of the further properties *)

(** The messages logged at level WARNING. *)
Definition warning_messages (l : list log_entry) : list string :=
  omap (fun entry => match entry with
                     | Log WARNING msg => Some msg
                     | _ => None
                     end) l.

(** A block that adds exactly the entries [l] to the log. *)
Definition says (c : M unit) (l : list log_entry) : Prop :=
  forall st, logs (exec c st) = logs st ++ l.

(** The entries logged by calls made one after the other, each followed by
    its own entries, until one raises and the handler logs instead. *)
Fixpoint logs_until_failure (steps : list (option exn * list log_entry))
    (handler : exn -> list log_entry) : list log_entry :=
  match steps with
  | [] => []
  | (None, after) :: steps' => after ++ logs_until_failure steps' handler
  | (Some e, _) :: _ => handler e
  end.

(** The fallback of line 46 is taken. *)
Definition uses_fallback (environ : gmap string string) : bool :=
  match environ !! "DATABASE_URL" with
  | None => true
  | Some url => negb (PyStr.truthy url)
  end.

(** What each block logs. *)
Definition database_config_logs (environ : gmap string string)
  : list log_entry :=
  (if uses_fallback environ then [Log WARNING "Using SQLite fallback"] else [])
  ++ [Log INFO "✅ Database config set"].

Definition init_database_logs (w : world) : list log_entry :=
  logs_until_failure
    [ (w_db_init_app w, [Log INFO "✅ Database initialized"]) ]
    (fun e => [Log ERROR ("❌ Database init failed: " +:+ exn_str e)]).

Definition test_connection_logs (w : world) : list log_entry :=
  logs_until_failure
    [ (w_engine_connect w, [Log INFO "✅ Database connection OK"]) ]
    (fun e => [Log ERROR ("❌ Database connection failed: " +:+ exn_str e)]).

Definition tables_logs (w : world) : list log_entry :=
  logs_until_failure
    [ (import_failure (w_import_models w), [Log INFO "✅ Models imported"]);
      (w_create_all w, [Log INFO "✅ Database tables created"]) ]
    (fun e => [Log ERROR ("❌ Table creation failed: " +:+ exn_str e)]).

Definition seeding_logs (w : world) (bound : bool) (table : list User)
  : list log_entry :=
  let handler e :=
    [Log ERROR ("❌ Admin user creation failed: " +:+ exn_str e)] in
  if bound then
    match w_query_admin w with
    | Some e => handler e
    | None =>
        match find (has_username "edson.lemes") table with
        | Some _ => []
        | None =>
            logs_until_failure
              [ (w_new_user w, []); (w_set_password w, []);
                (w_session_add w, []);
                (w_commit w, [Log INFO "✅ Admin user created"]) ]
              handler
        end
    end
  else handler (NameError "User").

Definition extension_logs (w : world) : list log_entry :=
  logs_until_failure
    [ (w_import_flask_login w, []);
      (w_import_flask_mail w, []);
      (w_login_manager w, [Log INFO "✅ Login manager configured"]);
      (w_mail_config w, []);
      (w_mail_init w, [Log INFO "✅ Mail configured"]);
      (w_makedirs w, [Log INFO "✅ Upload folder created"]);
      (w_import_routes w, [Log INFO "✅ SENAI routes imported successfully"]) ]
    (fun e => [ Log ERROR ("❌ Extensions setup failed: " +:+ exn_str e);
                LogTraceback e ]).

(** The log of a run that passes the import guard. *)
Definition startup_logs (w : world) (environ : gmap string string)
    (table : list User) : list log_entry :=
  [ Log INFO "🚀 STARTING RAILWAY APP..."; Log INFO "✅ Flask imported";
    Log INFO "✅ ProxyFix imported"; Log INFO "✅ Database imported";
    Log INFO "✅ Flask app created"; Log INFO "✅ Basic config set" ]
  ++ database_config_logs environ
  ++ init_database_logs w
  ++ [Log INFO "🔧 Initializing in app context..."]
  ++ test_connection_logs w
  ++ tables_logs w
  ++ seeding_logs w (bound_after_import (w_import_models w)) table
  ++ extension_logs w
  ++ [Log INFO "🎉 APPLICATION READY!"].

(** The admin seeding goes through: [User] is bound, the query returns and
    finds no row, and the four calls that build and store the account
    return. *)
Definition seeds (w : world) (table : list User) : bool :=
  bound_after_import (w_import_models w)
  && ok (w_query_admin w)
  && negb (bool_decide (is_Some (find (has_username "edson.lemes") table)))
  && ok (w_new_user w) && ok (w_set_password w)
  && ok (w_session_add w) && ok (w_commit w).

(** No call attempted in the run raises. *)
Definition clean_run (w : world) (table : list User) : bool :=
  ok (w_db_init_app w) && ok (w_engine_connect w) && quiet Tables w
  && (bound_after_import (w_import_models w)
      && ok (w_query_admin w)
      && (bool_decide (is_Some (find (has_username "edson.lemes") table))
          || (ok (w_new_user w) && ok (w_set_password w)
              && ok (w_session_add w) && ok (w_commit w))))
  && (extension_imports_ok w && quiet Login w && quiet Mail w
      && quiet Upload w && quiet Routes w).

(** [app.config.get("UPLOAD_FOLDER")] *)
Definition upload_folder (st : state) : option cfg_val :=
  config st !! "UPLOAD_FOLDER".

(** [app.config.get("SQLALCHEMY_TRACK_MODIFICATIONS")] *)
Definition track_modifications (st : state) : option cfg_val :=
  config st !! "SQLALCHEMY_TRACK_MODIFICATIONS".

(** ** The script under the full exception hierarchy *)

(** The [except Exception] blocks of the script do not intercept a
    [BaseException] outside [Exception].  In [Full] every recorded statement
    may raise one: [aborts ev] is the status with which the process then
    ends ([SystemExit]'s code, or the status the interpreter ends with on
    [KeyboardInterrupt]).  The blocks are those of the script above, line
    for line, with this one more way for a statement to end. *)
Module Full.

Definition call (aborts : event -> option Z) (ev : event)
    (fails : option exn) : M unit :=
  modify (add_event ev) ;;
  match aborts ev with
  | Some code => sys_exit code
  | None =>
      match fails with
      | Some e => raise e
      | None => ret tt
      end
  end.

(** Lines 20-32. *)
Definition import_guard (aborts : event -> option Z) (w : world) : M unit :=
  try_except
    (call aborts EvImportFlask (w_import_flask w) ;;
     logging_info "✅ Flask imported" ;;
     call aborts EvImportProxyFix (w_import_proxyfix w) ;;
     logging_info "✅ ProxyFix imported" ;;
     call aborts EvImportDb (w_import_db w) ;;
     logging_info "✅ Database imported")
    (fun e =>
       logging_error ("❌ Import error: " +:+ exn_str e) ;;
       sys_exit 1).

(** Lines 35-36. *)
Definition create_app (aborts : event -> option Z) : M unit :=
  call aborts EvFlask None ;;
  modify set_app_created ;;
  logging_info "✅ Flask app created".

(** Lines 39-41. *)
Definition basic_config (aborts : event -> option Z)
    (environ : gmap string string) : M unit :=
  call aborts EvSecretKey None ;;
  modify (set_secret_key (environ_get environ "SESSION_SECRET" "railway-key-2024")) ;;
  call aborts EvProxyFix None ;;
  logging_info "✅ Basic config set".

(** Lines 44-54. *)
Definition database_config (aborts : event -> option Z)
    (environ : gmap string string) : M unit :=
  database_url <- resolve_database_url environ ;;
  call aborts EvDbConfig None ;;
  modify (set_config "SQLALCHEMY_DATABASE_URI" (CStr database_url)) ;;
  modify (set_config "SQLALCHEMY_TRACK_MODIFICATIONS" (CBool false)) ;;
  logging_info "✅ Database config set".

(** Lines 57-61. *)
Definition init_database (aborts : event -> option Z) (w : world) : M unit :=
  try_except
    (call aborts EvDbInitApp (w_db_init_app w) ;;
     logging_info "✅ Database initialized")
    (fun e => logging_error ("❌ Database init failed: " +:+ exn_str e)).

(** Line 64. *)
Definition register_health (aborts : event -> option Z) : M unit :=
  call aborts EvRouteHealth None ;;
  modify (add_url_rule "/health").

(** Lines 81-85. *)
Definition test_connection (aborts : event -> option Z) (w : world)
  : M unit :=
  try_except
    (call aborts EvConnect (w_engine_connect w) ;;
     logging_info "✅ Database connection OK")
    (fun e => logging_error ("❌ Database connection failed: " +:+ exn_str e)).

(** Line 90. *)
Definition import_models (aborts : event -> option Z) (r : import_result)
  : M unit :=
  modify (add_event EvImportModels) ;;
  match aborts EvImportModels with
  | Some code => sys_exit code
  | None =>
      match r with
      | ImportOk => modify (set_user_bound true)
      | ImportFailed e bound =>
          (if bound then modify (set_user_bound true) else ret tt) ;;
          raise e
      end
  end.

(** Lines 88-96. *)
Definition create_tables (aborts : event -> option Z) (w : world) : M unit :=
  try_except
    (import_models aborts (w_import_models w) ;;
     logging_info "✅ Models imported" ;;
     call aborts EvCreateAll (w_create_all w) ;;
     logging_info "✅ Database tables created")
    (fun e => logging_error ("❌ Table creation failed: " +:+ exn_str e)).

(** Line 100. *)
Definition query_first_by_username (aborts : event -> option Z) (w : world)
    (u : string) : M (option User) :=
  modify (add_event EvQueryAdmin) ;;
  match aborts EvQueryAdmin with
  | Some code => sys_exit code
  | None =>
      bound <- get user_bound ;;
      if negb bound then raise (NameError "User") else
      match w_query_admin w with
      | Some e => raise e
      | None => table <- get rows ;; ret (find (has_username u) table)
      end
  end.

(** Line 108. *)
Definition session_add (aborts : event -> option Z) (w : world) (obj : User)
  : M unit :=
  call aborts EvSessionAdd (w_session_add w) ;;
  modify (fun st => set_session (session st ++ [obj]) st).

(** Line 109. *)
Definition session_commit (aborts : event -> option Z) (w : world) : M unit :=
  modify (add_event EvCommit) ;;
  match aborts EvCommit with
  | Some code => sys_exit code
  | None =>
      match w_commit w with
      | Some e => raise e
      | None =>
          modify (fun st => set_session [] (set_rows (rows st ++ session st) st))
      end
  end.

(** Lines 99-112. *)
Definition create_admin_user (aborts : event -> option Z) (w : world)
  : M unit :=
  try_except
    (admin_user <- query_first_by_username aborts w "edson.lemes" ;;
     match admin_user with
     | Some _ => ret tt
     | None =>
         call aborts EvNewUser (w_new_user w) ;;
         let admin_user := mkUser None None None None None in
         let admin_user :=
           mkUser (Some "edson.lemes") (name admin_user) (role admin_user)
                  (email admin_user) (password_hash admin_user) in
         let admin_user :=
           mkUser (username admin_user) (Some "Edson Lemes") (role admin_user)
                  (email admin_user) (password_hash admin_user) in
         let admin_user :=
           mkUser (username admin_user) (name admin_user) (Some "admin")
                  (email admin_user) (password_hash admin_user) in
         let admin_user :=
           mkUser (username admin_user) (name admin_user) (role admin_user)
                  (Some "edson.lemes@senai.br") (password_hash admin_user) in
         call aborts EvSetPassword (w_set_password w) ;;
         let admin_user :=
           mkUser (username admin_user) (name admin_user) (role admin_user)
                  (email admin_user) (Some (PasswordHash "senai103103")) in
         session_add aborts w admin_user ;;
         session_commit aborts w ;;
         logging_info "✅ Admin user created"
     end)
    (fun e => logging_error ("❌ Admin user creation failed: " +:+ exn_str e)).

(** Lines 115-161. *)
Definition configure_extensions (aborts : event -> option Z) (w : world)
  : M unit :=
  try_except
    (call aborts EvImportFlaskLogin (w_import_flask_login w) ;;
     call aborts EvImportFlaskMail (w_import_flask_mail w) ;;
     call aborts EvLoginManager (w_login_manager w) ;;
     modify (set_login_view "login") ;;
     logging_info "✅ Login manager configured" ;;
     call aborts EvMailConfig (w_mail_config w) ;;
     modify (set_config "UPLOAD_FOLDER" (CStr "/tmp/uploads")) ;;
     modify (set_config "MAX_CONTENT_LENGTH" (CInt (16 * 1024 * 1024))) ;;
     call aborts EvMailInit (w_mail_init w) ;;
     logging_info "✅ Mail configured" ;;
     upload_folder <- config_getitem "UPLOAD_FOLDER" ;;
     call aborts (EvMakedirs upload_folder) (w_makedirs w) ;;
     logging_info "✅ Upload folder created" ;;
     call aborts EvImportRoutes (w_import_routes w) ;;
     logging_info "✅ SENAI routes imported successfully")
    (fun e =>
       logging_error ("❌ Extensions setup failed: " +:+ exn_str e) ;;
       logging_traceback e).

(** Lines 76-168. *)
Definition initialize_in_app_context (aborts : event -> option Z) (w : world)
  : M unit :=
  call aborts EvAppContext None ;;
  try_except
    (logging_info "🔧 Initializing in app context..." ;;
     test_connection aborts w ;;
     create_tables aborts w ;;
     create_admin_user aborts w ;;
     configure_extensions aborts w ;;
     logging_info "🎉 APPLICATION READY!")
    (fun e =>
       logging_error ("❌ App context initialization failed: " +:+ exn_str e) ;;
       logging_traceback e).

(** The module body, lines 18-168. *)
Definition railway_simple_app (aborts : event -> option Z) (w : world)
    (environ : gmap string string) : M unit :=
  logging_info "🚀 STARTING RAILWAY APP..." ;;
  import_guard aborts w ;;
  create_app aborts ;;
  basic_config aborts environ ;;
  database_config aborts environ ;;
  init_database aborts w ;;
  register_health aborts ;;
  initialize_in_app_context aborts w.

Definition process_start (aborts : event -> option Z) (w : world)
    (environ : gmap string string) (table : list User)
  : outcome unit * state :=
  railway_simple_app aborts w environ (initial_state table).

End Full.

(** No statement raises outside [Exception]. *)
Definition no_aborts : event -> option Z := fun _ => None.

(** Only the statement [site] does, ending the process with [code]. *)
Definition abort_at (site : event) (code : Z) : event -> option Z :=
  fun ev => if decide (ev = site) then Some code else None.

(** The status of the first statement of a record that raises outside
    [Exception], and the record up to that statement. *)
Fixpoint first_abort (aborts : event -> option Z) (tr : list event)
  : option Z :=
  match tr with
  | [] => None
  | ev :: tr' =>
      match aborts ev with
      | Some code => Some code
      | None => first_abort aborts tr'
      end
  end.

Fixpoint cut (aborts : event -> option Z) (tr : list event) : list event :=
  match tr with
  | [] => []
  | ev :: tr' =>
      match aborts ev with
      | Some _ => [ev]
      | None => ev :: cut aborts tr'
      end
  end.

(** A statement that only adds to the log and to the record of calls. *)
Definition grows {A} (c : M A) : Prop :=
  forall st, exists evs l,
    trace (exec c st) = trace st ++ evs /\ logs (exec c st) = logs st ++ l.

(** [gc] is [c] under the full exception hierarchy: from any state it does
    what [c] does, every statement recorded being one that does not raise
    outside [Exception], or it ends at the first statement that does, having
    recorded and logged a part of what [c] records and logs. *)
Definition sim {A} (aborts : event -> option Z) (gc c : M A) : Prop :=
  forall st,
    (gc st = c st /\
     exists evs, trace (exec c st) = trace st ++ evs /\
                 Forall (fun ev => aborts ev = None) evs) \/
    (exists code st' evs ev rest l,
       gc st = (Exited code, st') /\
       trace st' = trace st ++ evs ++ [ev] /\
       Forall (fun ev => aborts ev = None) evs /\
       aborts ev = Some code /\
       trace (exec c st) = trace st' ++ rest /\
       logs (exec c st) = logs st' ++ l).

(** The last entry of a run that reaches its end. *)
Definition ready : log_entry := Log INFO "🎉 APPLICATION READY!".

(** A statement that does not log [ready], and one that has not logged it
    unless it returns. *)
Definition keeps_unready {A} (c : M A) : Prop :=
  forall st, ready ∉ logs st -> ready ∉ logs (exec c st).

Definition unready_unless_returned {A} (c : M A) : Prop :=
  forall st,
    ready ∉ logs st ->
    match result c st with
    | Returned _ => True
    | _ => ready ∉ logs (exec c st)
    end.

(** ** Vocabulary of failure isolation *)

Fixpoint first_failure (calls : list (option exn)) : option exn :=
  match calls with
  | [] => None
  | Some e :: _ => Some e
  | None :: calls' => first_failure calls'
  end.

(** No call of the step raises, the imports of lines 116-117 counted with
    the login manager and the mail configuration. *)
Definition silent (s : step) (w : world) : bool :=
  match s with
  | Login => ok (w_import_flask_login w) && ok (w_login_manager w)
  | Mail => ok (w_import_flask_mail w) && ok (w_mail_config w)
            && ok (w_mail_init w)
  | _ => quiet s w
  end.

(** The exception the step raises in a run where the other steps are
    silent: that of its first call to raise, the calls that create the
    account being made when the query finds no row. *)
Definition raised_by (s : step) (w : world) (table : list User)
  : option exn :=
  match s with
  | DbInit => w_db_init_app w
  | Probe => w_engine_connect w
  | Tables => first_failure [import_failure (w_import_models w); w_create_all w]
  | Seed =>
      match w_query_admin w with
      | Some e => Some e
      | None =>
          match find (has_username "edson.lemes") table with
          | Some _ => None
          | None =>
              first_failure [w_new_user w; w_set_password w;
                             w_session_add w; w_commit w]
          end
      end
  | Login => first_failure [w_import_flask_login w; w_login_manager w]
  | Mail => first_failure [w_import_flask_mail w; w_mail_config w;
                           w_mail_init w]
  | Upload => w_makedirs w
  | Routes => w_import_routes w
  end.

(** What the handler of the step's [try] logs. *)
Definition failure_message (s : step) (e : exn) : string :=
  match s with
  | DbInit => "❌ Database init failed: " +:+ exn_str e
  | Probe => "❌ Database connection failed: " +:+ exn_str e
  | Tables => "❌ Table creation failed: " +:+ exn_str e
  | Seed => "❌ Admin user creation failed: " +:+ exn_str e
  | Login | Mail | Upload | Routes =>
      "❌ Extensions setup failed: " +:+ exn_str e
  end.

(** The statements of a step. *)
Definition step_sites (s : step) : list event :=
  match s with
  | DbInit => [EvDbInitApp]
  | Probe => [EvConnect]
  | Tables => [EvImportModels; EvCreateAll]
  | Seed => [EvQueryAdmin; EvNewUser; EvSetPassword; EvSessionAdd; EvCommit]
  | Login => [EvImportFlaskLogin; EvLoginManager]
  | Mail => [EvImportFlaskMail; EvMailConfig; EvMailInit]
  | Upload => [EvMakedirs (CStr "/tmp/uploads")]
  | Routes => [EvImportRoutes]
  end.

(** The statement is reached in a run where no call raises: those that
    create the account are when the query finds no row. *)
Definition site_reached (site : event) (table : list User) : bool :=
  match site with
  | EvNewUser | EvSetPassword | EvSessionAdd | EvCommit =>
      negb (bool_decide (is_Some (find (has_username "edson.lemes") table)))
  | _ => true
  end.

(** * Properties *)

(** ** The monad *)

Section Monad_facts.
Context {A B : Type}.
Implicit Types (c : M A) (k : A -> M B).

Lemma bind_returned c k st a st' :
  c st = (Returned a, st') -> bind c k st = k a st'.
Proof. intros H. unfold bind. now rewrite H. Qed.

Lemma bind_exited c k st n st' :
  c st = (Exited n, st') -> bind c k st = (Exited n, st').
Proof. intros H. unfold bind. now rewrite H. Qed.

Lemma try_returned c (h : exn -> M A) st a st' :
  c st = (Returned a, st') -> try_except c h st = (Returned a, st').
Proof. intros H. unfold try_except. now rewrite H. Qed.

End Monad_facts.

Lemma run_eta {A} (c : M A) st : c st = (result c st, exec c st).
Proof. unfold result, exec. now destruct (c st). Qed.

Lemma completes_run c st : completes c -> c st = (Returned tt, exec c st).
Proof. intros H. rewrite (run_eta c st). now rewrite H. Qed.

Lemma seq_run {B} (c : M unit) (k : M B) st :
  completes c -> (c ;; k) st = k (exec c st).
Proof.
  intros H. apply (bind_returned c (fun _ => k) st tt). now apply completes_run.
Qed.

Lemma seq_result {B} (c : M unit) (k : M B) st :
  completes c -> result (c ;; k) st = result k (exec c st).
Proof. intros H. unfold result at 1. now rewrite seq_run. Qed.

Lemma completes_seq (c k : M unit) :
  completes c -> completes k -> completes (c ;; k).
Proof. intros Hc Hk st. rewrite seq_result by assumption. apply Hk. Qed.

Lemma completes_modify f : completes (modify f).
Proof. now intros st. Qed.

Lemma try_completes_run (c : M unit) h st :
  completes c -> try_except c h st = c st.
Proof.
  intros Hc. rewrite (completes_run c st Hc).
  now apply try_returned, completes_run.
Qed.

Section Preservation.
Context {X : Type} (f : state -> X).

Lemma preserves_ret {A} (a : A) : preserves f (ret a).
Proof. now intros st. Qed.

Lemma preserves_raise {A} e : preserves f (@raise A e).
Proof. now intros st. Qed.

Lemma preserves_sys_exit {A} n : preserves f (@sys_exit A n).
Proof. now intros st. Qed.

Lemma preserves_get {Y} (g : state -> Y) : preserves f (get g).
Proof. now intros st. Qed.

Lemma preserves_modify g :
  (forall st, f (g st) = f st) -> preserves f (modify g).
Proof. intros H st. apply H. Qed.

Lemma preserves_bind {A B} (c : M A) (k : A -> M B) :
  preserves f c -> (forall a, preserves f (k a)) -> preserves f (bind c k).
Proof.
  intros Hc Hk st. unfold exec, bind.
  specialize (Hc st). unfold exec in Hc.
  destruct (c st) as [[a|e|n] st']; simpl in *; try assumption.
  rewrite <- Hc. apply Hk.
Qed.

Lemma preserves_try {A} (c : M A) h :
  preserves f c -> (forall e, preserves f (h e)) ->
  preserves f (try_except c h).
Proof.
  intros Hc Hh st. unfold exec, try_except.
  specialize (Hc st). unfold exec in Hc.
  destruct (c st) as [[a|e|n] st']; simpl in *; try assumption.
  rewrite <- Hc. apply Hh.
Qed.

Lemma preserves_if {A} (b : bool) (c1 c2 : M A) :
  preserves f c1 -> preserves f c2 -> preserves f (if b then c1 else c2).
Proof. now destruct b. Qed.

Lemma preserves_call ev o :
  (forall st, f (add_event ev st) = f st) -> preserves f (call ev o).
Proof.
  intros H. unfold call. apply preserves_bind.
  - now apply preserves_modify.
  - intros _. destruct o; [apply preserves_raise | apply preserves_ret].
Qed.
End Preservation.

Global Instance rows_quiet : Quiet_obs rows.
Proof. now split. Qed.
Global Instance secret_key_quiet : Quiet_obs secret_key.
Proof. now split. Qed.
Global Instance user_bound_quiet : Quiet_obs user_bound.
Proof. now split. Qed.

Section Quiet_preservation.
Context {X : Type} (f : state -> X) `{!Quiet_obs f}.

Lemma preserves_logging_info m : preserves f (logging_info m).
Proof. apply preserves_modify, obs_log. Qed.
Lemma preserves_logging_warning m : preserves f (logging_warning m).
Proof. apply preserves_modify, obs_log. Qed.
Lemma preserves_logging_error m : preserves f (logging_error m).
Proof. apply preserves_modify, obs_log. Qed.
Lemma preserves_logging_traceback e : preserves f (logging_traceback e).
Proof. apply preserves_modify, obs_log. Qed.
Lemma preserves_event ev : preserves f (modify (add_event ev)).
Proof. apply preserves_modify, obs_event. Qed.
Lemma preserves_call_quiet ev o : preserves f (call ev o).
Proof. apply preserves_call, obs_event. Qed.
End Quiet_preservation.

Create HintDb frame discriminated.
#[export] Hint Resolve preserves_ret preserves_raise preserves_sys_exit
  preserves_get preserves_bind preserves_try preserves_if
  preserves_logging_info preserves_logging_warning preserves_logging_error
  preserves_logging_traceback preserves_event preserves_call_quiet : frame.
#[export] Hint Extern 2 (preserves _ (modify _)) =>
  (apply preserves_modify; intros; reflexivity) : frame.
#[export] Hint Extern 5 (preserves _ (match ?x with _ => _ end)) =>
  destruct x : frame.
#[export] Hint Extern 1 (Quiet_obs _) => typeclasses eauto : frame.

Ltac frame := repeat (intros; unfold config_getitem); eauto 40 with frame.

Section Never_exits.
Lemma never_exits_ret {A} (a : A) : never_exits (ret a).
Proof. now intros st n. Qed.

Lemma never_exits_raise {A} e : never_exits (@raise A e).
Proof. now intros st n. Qed.

Lemma never_exits_modify f : never_exits (modify f).
Proof. now intros st n. Qed.

Lemma never_exits_get {Y} (g : state -> Y) : never_exits (get g).
Proof. now intros st n. Qed.

Lemma never_exits_bind {A B} (c : M A) (k : A -> M B) :
  never_exits c -> (forall a, never_exits (k a)) -> never_exits (bind c k).
Proof.
  intros Hc Hk st n. unfold result, bind.
  specialize (Hc st). unfold result in Hc.
  destruct (c st) as [[a|e|m] st']; simpl in *.
  - apply Hk.
  - discriminate.
  - now destruct (Hc m).
Qed.

Lemma never_exits_try {A} (c : M A) h :
  never_exits c -> (forall e, never_exits (h e)) ->
  never_exits (try_except c h).
Proof.
  intros Hc Hh st n. unfold result, try_except.
  specialize (Hc st). unfold result in Hc.
  destruct (c st) as [[a|e|m] st']; simpl in *.
  - discriminate.
  - apply Hh.
  - now destruct (Hc m).
Qed.

Lemma never_exits_if {A} (b : bool) (c1 c2 : M A) :
  never_exits c1 -> never_exits c2 -> never_exits (if b then c1 else c2).
Proof. now destruct b. Qed.

Lemma never_exits_call ev o : never_exits (call ev o).
Proof.
  unfold call. apply never_exits_bind; [apply never_exits_modify|].
  intros _. destruct o; [apply never_exits_raise | apply never_exits_ret].
Qed.
End Never_exits.

Create HintDb noexit discriminated.
#[export] Hint Resolve never_exits_ret never_exits_raise never_exits_modify
  never_exits_get never_exits_bind never_exits_try never_exits_if
  never_exits_call : noexit.
#[export] Hint Extern 1 (never_exits (logging_info _)) =>
  apply never_exits_modify : noexit.
#[export] Hint Extern 1 (never_exits (logging_warning _)) =>
  apply never_exits_modify : noexit.
#[export] Hint Extern 1 (never_exits (logging_error _)) =>
  apply never_exits_modify : noexit.
#[export] Hint Extern 1 (never_exits (logging_traceback _)) =>
  apply never_exits_modify : noexit.
#[export] Hint Extern 5 (never_exits (match ?x with _ => _ end)) =>
  destruct x : noexit.

(** A guarded block whose handler runs to its end does so itself. *)
Lemma completes_try (c : M unit) h :
  never_exits c -> (forall e, completes (h e)) -> completes (try_except c h).
Proof.
  intros Hc Hh st. unfold result, try_except.
  specialize (Hc st). unfold result in Hc.
  destruct (c st) as [[[]|e|m] st']; simpl in *.
  - reflexivity.
  - apply Hh.
  - now destruct (Hc m).
Qed.

Lemma completes_logging_info m : completes (logging_info m).
Proof. apply completes_modify. Qed.
Lemma completes_logging_error m : completes (logging_error m).
Proof. apply completes_modify. Qed.
Lemma completes_logging_traceback e : completes (logging_traceback e).
Proof. apply completes_modify. Qed.

Create HintDb total discriminated.
#[export] Hint Resolve completes_seq completes_modify completes_logging_info
  completes_logging_error completes_logging_traceback : total.

Ltac noexit := intros; eauto 60 with noexit.
Ltac total := intros; eauto 20 with total.

(** ** The blocks of the script run to their end *)

Lemma create_app_completes : completes create_app.
Proof. unfold create_app. total. Qed.

Lemma basic_config_completes environ : completes (basic_config environ).
Proof. unfold basic_config. total. Qed.

Lemma init_database_completes w : completes (init_database w).
Proof. apply completes_try; [noexit | total]. Qed.

Lemma register_health_completes : completes register_health.
Proof. unfold register_health. total. Qed.

Lemma test_connection_completes w : completes (test_connection w).
Proof. apply completes_try; [noexit | total]. Qed.

Lemma create_tables_completes w : completes (create_tables w).
Proof.
  apply completes_try; [unfold import_models; noexit | total].
Qed.

Lemma create_admin_user_completes w : completes (create_admin_user w).
Proof.
  apply completes_try; [|total].
  unfold query_first_by_username, session_add, session_commit. noexit.
Qed.

Lemma configure_extensions_completes w : completes (configure_extensions w).
Proof.
  apply completes_try; [unfold config_getitem; noexit | total].
Qed.

Local Arguments PyStr.startswith : simpl never.
Local Arguments PyStr.replace : simpl never.

Ltac run :=
  cbv beta iota zeta delta
      [exec result fst snd bind ret raise sys_exit try_except modify get call
       logging_info logging_warning logging_error logging_traceback negb
       PyStr.truthy].

Tactic Notation "run" "in" hyp(H) :=
  cbv beta iota zeta delta
      [exec result fst snd bind ret raise sys_exit try_except modify get call
       logging_info logging_warning logging_error logging_traceback negb
       PyStr.truthy] in H.

(** The value bound to [database_url] depends on the environment only. *)
Lemma resolve_database_url_total environ :
  exists u, forall st, result (resolve_database_url environ) st = Returned u.
Proof.
  unfold resolve_database_url.
  destruct (environ !! "DATABASE_URL") as [[|c url]|].
  - exists "sqlite:///test.db". intros st. reflexivity.
  - destruct (PyStr.startswith (String c url) "postgres://") eqn:E;
      eexists; intros st; run; rewrite E; reflexivity.
  - exists "sqlite:///test.db". intros st. reflexivity.
Qed.

Lemma database_config_run environ u st :
  result (resolve_database_url environ) st = Returned u ->
  database_config environ st =
    (Returned tt,
     add_log (Log INFO "✅ Database config set")
       (set_config "SQLALCHEMY_TRACK_MODIFICATIONS" (CBool false)
          (set_config "SQLALCHEMY_DATABASE_URI" (CStr u)
             (add_event EvDbConfig
                (exec (resolve_database_url environ) st))))).
Proof.
  intros H. unfold database_config.
  erewrite bind_returned; [reflexivity|].
  rewrite (run_eta (resolve_database_url environ) st). now rewrite H.
Qed.

Lemma database_config_completes environ : completes (database_config environ).
Proof.
  intros st. destruct (resolve_database_url_total environ) as [u Hu].
  unfold result. now rewrite (database_config_run environ u st (Hu st)).
Qed.

Lemma resolve_database_url_frame {X} (f : state -> X) `{!Quiet_obs f} environ :
  preserves f (resolve_database_url environ).
Proof. unfold resolve_database_url. frame. Qed.

(** *** The import guard *)

Lemma import_guard_passes w st :
  imports_ok w = true ->
  import_guard w st =
    (Returned tt,
     add_log (Log INFO "✅ Database imported") (add_event EvImportDb
       (add_log (Log INFO "✅ ProxyFix imported") (add_event EvImportProxyFix
          (add_log (Log INFO "✅ Flask imported")
             (add_event EvImportFlask st)))))).
Proof.
  unfold imports_ok, import_guard.
  destruct (w_import_flask w), (w_import_proxyfix w), (w_import_db w);
    simpl; intros H; try discriminate H; reflexivity.
Qed.

Lemma import_guard_completes w :
  imports_ok w = true -> completes (import_guard w).
Proof.
  intros H st. unfold result. now rewrite import_guard_passes.
Qed.

Lemma import_guard_exits w st :
  imports_ok w = false ->
  exists e evs,
    result (import_guard w) st = Exited 1 /\
    last (logs (exec (import_guard w) st)) =
      Some (Log ERROR ("❌ Import error: " +:+ exn_str e)) /\
    trace (exec (import_guard w) st) = trace st ++ evs /\
    Forall foundational_import evs.
Proof.
  unfold imports_ok, import_guard, foundational_import.
  destruct (w_import_flask w) as [e1|] eqn:E1;
    [| destruct (w_import_proxyfix w) as [e2|] eqn:E2;
       [| destruct (w_import_db w) as [e3|] eqn:E3 ] ];
    simpl; intros H; try discriminate H.
  - exists e1, [EvImportFlask].
    split; [reflexivity|]. split; [apply last_snoc|].
    split; [reflexivity|]. repeat constructor.
  - exists e2, [EvImportFlask; EvImportProxyFix].
    split; [reflexivity|]. split; [apply last_snoc|].
    split; [now rewrite <- !app_assoc|].
    repeat (constructor; auto).
  - exists e3, [EvImportFlask; EvImportProxyFix; EvImportDb].
    split; [reflexivity|]. split; [apply last_snoc|].
    split; [now rewrite <- !app_assoc|].
    repeat (constructor; auto).
Qed.

#[export] Hint Resolve create_app_completes basic_config_completes
  database_config_completes init_database_completes register_health_completes
  test_connection_completes create_tables_completes
  create_admin_user_completes configure_extensions_completes
  import_guard_completes : total.

(** ** A run that passes the import guard is the sequence of its blocks *)

Lemma run_all_app l1 l2 st : run_all (l1 ++ l2) st = run_all l2 (run_all l1 st).
Proof. apply fold_left_app. Qed.

Lemma run_all_preserves {X} (f : state -> X) blocks st :
  Forall (preserves f) blocks -> f (run_all blocks st) = f st.
Proof.
  intros H. revert st.
  induction H as [|c blocks Hc _ IH]; intros st; [reflexivity|].
  simpl. rewrite IH. apply Hc.
Qed.

Lemma initialize_in_app_context_run w st :
  initialize_in_app_context w st =
    (Returned tt, run_all (context_blocks w) (add_event EvAppContext st)).
Proof.
  unfold initialize_in_app_context.
  rewrite seq_run by total.
  rewrite try_completes_run by total.
  repeat rewrite seq_run by total.
  now rewrite completes_run by total.
Qed.

Lemma process_start_blocks w environ table :
  imports_ok w = true ->
  process_start w environ table =
    (Returned tt, run_all (startup_blocks w environ) (initial_state table)).
Proof.
  intros Hw. unfold process_start, railway_simple_app.
  repeat rewrite seq_run by total.
  now rewrite initialize_in_app_context_run.
Qed.

Lemma process_start_final w environ table :
  imports_ok w = true ->
  snd (process_start w environ table) =
    run_all (startup_blocks w environ) (initial_state table).
Proof. intros Hw. now rewrite process_start_blocks. Qed.

(** ** Observations of the final state *)

Global Instance session_quiet : Quiet_obs session.
Proof. now split. Qed.
Global Instance database_uri_quiet : Quiet_obs database_uri.
Proof. now split. Qed.

Lemma database_uri_set_config k v st :
  k <> "SQLALCHEMY_DATABASE_URI" ->
  database_uri (set_config k v st) = database_uri st.
Proof. intros Hk. unfold database_uri. simpl. now apply lookup_insert_ne. Qed.

#[export] Hint Extern 1 (preserves database_uri (modify (set_config _ _))) =>
  (apply preserves_modify; intros; apply database_uri_set_config;
   discriminate) : frame.

Ltac unfold_blocks :=
  unfold import_guard, create_app, basic_config, database_config,
    init_database, register_health, test_connection, create_tables,
    import_models, create_admin_user, query_first_by_username, session_add,
    session_commit, configure_extensions, config_getitem.

(** [frame_blocks] proves that each block of a list leaves the observation
    of the goal alone. *)
Ltac frame_blocks :=
  repeat (apply List.Forall_cons;
          [ first [ apply resolve_database_url_frame; typeclasses eauto
                  | unfold_blocks; frame ] |]);
  apply List.Forall_nil.

Lemma startup_secret_key w environ table :
  imports_ok w = true ->
  secret_key (snd (process_start w environ table)) =
    Some (environ_get environ "SESSION_SECRET" "railway-key-2024").
Proof.
  intros Hw. rewrite process_start_final by assumption.
  change (startup_blocks w environ) with
    ([ logging_info "🚀 STARTING RAILWAY APP..."; import_guard w; create_app;
       basic_config environ ]
     ++ [ database_config environ; init_database w; register_health;
          modify (add_event EvAppContext) ] ++ context_blocks w).
  rewrite run_all_app.
  rewrite run_all_preserves.
  - reflexivity.
  - unfold context_blocks. simpl app.
    apply List.Forall_cons.
    { unfold database_config. apply preserves_bind.
      - apply resolve_database_url_frame; typeclasses eauto.
      - frame. }
    frame_blocks.
Qed.

Lemma startup_database_uri w environ table u :
  imports_ok w = true ->
  (forall st, result (resolve_database_url environ) st = Returned u) ->
  database_uri (snd (process_start w environ table)) = Some (CStr u).
Proof.
  intros Hw Hu. rewrite process_start_final by assumption.
  change (startup_blocks w environ) with
    ([ logging_info "🚀 STARTING RAILWAY APP..."; import_guard w; create_app;
       basic_config environ; database_config environ ]
     ++ [ init_database w; register_health;
          modify (add_event EvAppContext) ] ++ context_blocks w).
  rewrite run_all_app.
  rewrite run_all_preserves.
  - cbn [run_all fold_left]. unfold exec at 1.
    rewrite (database_config_run environ u) by apply Hu.
    unfold database_uri. simpl.
    rewrite lookup_insert_ne by discriminate. apply lookup_insert_eq.
  - unfold context_blocks. simpl app. frame_blocks.
Qed.

(** ** String facts behind the URL rewrite *)

Section Strings.
Lemma startswith_append p rest : PyStr.startswith (p +:+ rest) p = true.
Proof.
  induction p as [|a p IH]; [reflexivity|].
  change ((if Ascii.eqb a a then PyStr.startswith (p +:+ rest) p else false)
          = true).
  now rewrite Ascii.eqb_refl.
Qed.

Lemma drop_append p rest : PyStr.drop (String.length p) (p +:+ rest) = rest.
Proof. induction p as [|a p IH]; simpl; [reflexivity | assumption]. Qed.

(** With no replacement left to make, the scan passes over the rest of
    the matched occurrence and copies what follows. *)
Lemma replace_from_done old new skip s :
  PyStr.replace_from old new 0 skip s = PyStr.drop skip s.
Proof.
  revert skip. induction s as [|c s IH]; intros [|k]; simpl; auto.
Qed.

(** Replacing the first occurrence in a string that starts with it. *)
Lemma replace_leading old new rest :
  old <> EmptyString ->
  PyStr.replace (old +:+ rest) old new 1 = new +:+ rest.
Proof.
  destruct old as [|a old]; [congruence | intros _].
  unfold PyStr.replace.
  change (String a old +:+ rest) with (String a (old +:+ rest)).
  cbn [PyStr.replace_from].
  change (String a (old +:+ rest)) with (String a old +:+ rest).
  rewrite startswith_append, replace_from_done.
  cbn [String.length]. rewrite Nat.sub_1_r. cbn [Nat.pred].
  now rewrite drop_append.
Qed.
End Strings.

Example replace_first_occurrence_only :
  PyStr.replace "postgres://postgres://db" "postgres://" "postgresql://" 1
  = "postgresql://postgres://db".
Proof. reflexivity. Qed.

Example replace_counts_occurrences :
  PyStr.replace "ab-ab-ab" "ab" "x" 2 = "x-x-ab".
Proof. reflexivity. Qed.

Example replace_does_not_overlap :
  PyStr.replace "aaa" "aa" "b" 2 = "ba".
Proof. reflexivity. Qed.

Lemma resolve_unset environ st :
  environ !! "DATABASE_URL" = None ->
  result (resolve_database_url environ) st = Returned "sqlite:///test.db".
Proof. intros H. unfold resolve_database_url. now rewrite H. Qed.

Lemma resolve_empty environ st :
  environ !! "DATABASE_URL" = Some EmptyString ->
  result (resolve_database_url environ) st = Returned "sqlite:///test.db".
Proof. intros H. unfold resolve_database_url. now rewrite H. Qed.

Lemma resolve_deprecated environ rest st :
  environ !! "DATABASE_URL" = Some ("postgres://" +:+ rest) ->
  result (resolve_database_url environ) st =
    Returned ("postgresql://" +:+ rest).
Proof.
  intros H. unfold resolve_database_url. rewrite H.
  change (PyStr.truthy ("postgres://" +:+ rest)) with true. run.
  rewrite startswith_append. run.
  now rewrite replace_leading.
Qed.

Lemma resolve_other environ url st :
  environ !! "DATABASE_URL" = Some url ->
  url <> EmptyString ->
  PyStr.startswith url "postgres://" = false ->
  result (resolve_database_url environ) st = Returned url.
Proof.
  intros H Hne Hp. unfold resolve_database_url. rewrite H.
  destruct url as [|c url]; [congruence|]. run. now rewrite Hp.
Qed.

(** ** The admin seeding block and the user table *)

Lemma query_first_by_username_run w u st :
  query_first_by_username w u st =
    let st1 := add_event EvQueryAdmin st in
    if user_bound st
    then match w_query_admin w with
         | Some e => (Raised e, st1)
         | None => (Returned (find (has_username u) (rows st)), st1)
         end
    else (Raised (NameError "User"), st1).
Proof.
  unfold query_first_by_username. run. simpl.
  destruct (user_bound st); [destruct (w_query_admin w)|]; reflexivity.
Qed.

(** What the block does to the table: nothing, or, when the query found no
    row, one appended account. *)
Lemma create_admin_user_rows w st :
  session st = [] ->
  rows (exec (create_admin_user w) st) = rows st \/
  (find (has_username "edson.lemes") (rows st) = None /\
   rows (exec (create_admin_user w) st) = rows st ++ [admin_account]).
Proof.
  intros Hs. remember (exec (create_admin_user w) st) as st' eqn:E.
  unfold create_admin_user, exec, try_except in E.
  unfold bind at 1 in E. rewrite query_first_by_username_run in E.
  cbv zeta in E.
  destruct (user_bound st); [|subst st'; now left].
  destruct (w_query_admin w); [subst st'; now left|].
  destruct (find (has_username "edson.lemes") (rows st)) eqn:Hfind;
    [subst st'; now left|].
  unfold session_add, session_commit in E. run in E.
  destruct (w_new_user w); [subst st'; now left|].
  destruct (w_set_password w); [subst st'; now left|].
  destruct (w_session_add w); [subst st'; now left|].
  destruct (w_commit w); [subst st'; now left|].
  right. split; [reflexivity|]. subst st'. simpl. now rewrite Hs.
Qed.

(** A run stopped by the import guard ends in the state the guard left. *)
Lemma process_start_exits w environ table :
  imports_ok w = false ->
  process_start w environ table =
    (Exited 1,
     exec (import_guard w)
          (add_log (Log INFO "🚀 STARTING RAILWAY APP...") (initial_state table))).
Proof.
  intros Hw. unfold process_start, railway_simple_app.
  rewrite seq_run by total.
  set (st := exec _ _).
  destruct (import_guard_exits w st Hw) as (e & evs & Hr & _).
  apply (bind_exited (import_guard w) _ st 1 (exec (import_guard w) st)).
  rewrite (run_eta (import_guard w) st). now rewrite Hr.
Qed.

Lemma import_guard_frame {X} (f : state -> X) `{!Quiet_obs f} w :
  preserves f (import_guard w).
Proof. unfold import_guard. frame. Qed.

Lemma startup_blocks_split w environ :
  startup_blocks w environ =
    blocks_before_seeding w environ
    ++ [create_admin_user w] ++ blocks_after_seeding w.
Proof. reflexivity. Qed.

Lemma before_seeding_frame {X} (f : state -> X) `{!Quiet_obs f} w environ :
  (forall st, f (set_app_created st) = f st) ->
  (forall k st, f (set_secret_key k st) = f st) ->
  (forall k v st, f (set_config k v st) = f st) ->
  (forall r st, f (add_url_rule r st) = f st) ->
  (forall b st, f (set_user_bound b st) = f st) ->
  Forall (preserves f) (blocks_before_seeding w environ).
Proof.
  intros H1 H2 H3 H4 H5. unfold blocks_before_seeding.
  assert (Hm : forall g, (forall st, f (g st) = f st) -> preserves f (modify g))
    by (intros g Hg; now apply preserves_modify).
  repeat (apply List.Forall_cons;
          [ unfold_blocks; unfold resolve_database_url;
            repeat first
              [ apply preserves_bind; [|intros ?]
              | apply preserves_try; [|intros ?]
              | apply Hm; intros ?; solve [ auto ]
              | progress frame
              | match goal with
                | |- preserves _ (match ?x with _ => _ end) => destruct x
                | |- preserves _ (if ?x then _ else _) => destruct x
                end ] |]).
  apply List.Forall_nil.
Qed.

Lemma state_before_seeding w environ table :
  let st := run_all (blocks_before_seeding w environ) (initial_state table) in
  rows st = table /\ session st = [].
Proof.
  split.
  - rewrite run_all_preserves; [reflexivity|].
    apply before_seeding_frame; try typeclasses eauto; reflexivity.
  - rewrite run_all_preserves; [reflexivity|].
    apply before_seeding_frame; try typeclasses eauto; reflexivity.
Qed.

Lemma after_seeding_rows w st :
  rows (run_all (blocks_after_seeding w) st) = rows st.
Proof.
  apply run_all_preserves. unfold blocks_after_seeding. frame_blocks.
Qed.

(** One process start leaves the table as it was or, when it held no row
    with the admin username, appends the admin account. *)
Lemma process_start_rows w environ table :
  rows (snd (process_start w environ table)) = table \/
  (find (has_username "edson.lemes") table = None /\
   rows (snd (process_start w environ table)) = table ++ [admin_account]).
Proof.
  destruct (imports_ok w) eqn:Hw.
  - rewrite process_start_final by assumption.
    rewrite startup_blocks_split, !run_all_app, after_seeding_rows.
    destruct (state_before_seeding w environ table) as [Hrows Hsess].
    cbn [run_all fold_left].
    destruct (create_admin_user_rows w _ Hsess) as [H|[Hf H]];
      rewrite H, Hrows; [now left|right].
    now rewrite <- Hrows.
  - left. rewrite process_start_exits by assumption. cbn [snd].
    now rewrite (import_guard_frame rows).
Qed.

(** ** The calls of a run *)

Ltac proj :=
  cbn [fst snd logs trace app_created secret_key config url_rules login_view
       user_bound session rows add_log add_event set_app_created
       set_secret_key set_config add_url_rule set_login_view set_user_bound
       set_session set_rows].

Ltac trace_eq :=
  run; proj; repeat rewrite <- app_assoc; try rewrite app_nil_r; reflexivity.

Lemma emits_logging_info m : emits (logging_info m) [].
Proof. intros st. trace_eq. Qed.

Lemma emits_event ev : emits (modify (add_event ev)) [ev].
Proof. intros st. trace_eq. Qed.

Lemma emits_import_guard w :
  imports_ok w = true ->
  emits (import_guard w) [EvImportFlask; EvImportProxyFix; EvImportDb].
Proof.
  intros Hw st. unfold exec. rewrite import_guard_passes by assumption.
  trace_eq.
Qed.

Lemma emits_create_app : emits create_app [EvFlask].
Proof. intros st. unfold create_app. trace_eq. Qed.

Lemma emits_basic_config environ :
  emits (basic_config environ) [EvSecretKey; EvProxyFix].
Proof. intros st. unfold basic_config. trace_eq. Qed.

Lemma resolve_database_url_trace environ st :
  trace (exec (resolve_database_url environ) st) = trace st.
Proof.
  unfold resolve_database_url.
  destruct (environ !! "DATABASE_URL") as [[|c url]|]; run;
    try reflexivity.
  destruct (PyStr.startswith (String c url) "postgres://"); reflexivity.
Qed.

Lemma emits_database_config environ :
  emits (database_config environ) [EvDbConfig].
Proof.
  intros st. destruct (resolve_database_url_total environ) as [u Hu].
  unfold exec at 1. rewrite (database_config_run environ u st (Hu st)).
  proj. now rewrite resolve_database_url_trace.
Qed.

Lemma emits_init_database w : emits (init_database w) [EvDbInitApp].
Proof.
  intros st. unfold init_database. destruct (w_db_init_app w); trace_eq.
Qed.

Lemma emits_register_health : emits register_health [EvRouteHealth].
Proof. intros st. unfold register_health. trace_eq. Qed.

Lemma emits_test_connection w : emits (test_connection w) [EvConnect].
Proof.
  intros st. unfold test_connection. destruct (w_engine_connect w); trace_eq.
Qed.

Lemma emits_create_tables w : emits (create_tables w) (tables_events w).
Proof.
  intros st. unfold create_tables, import_models, tables_events.
  destruct (w_import_models w) as [|e []]; [destruct (w_create_all w)| |];
    trace_eq.
Qed.

Lemma create_tables_user_bound w st :
  user_bound (exec (create_tables w) st) =
    bound_after_import (w_import_models w) || user_bound st.
Proof.
  unfold create_tables, import_models.
  destruct (w_import_models w) as [|e []]; [destruct (w_create_all w)| |];
    reflexivity.
Qed.

Lemma create_admin_user_trace w st :
  session st = [] ->
  trace (exec (create_admin_user w) st) =
    trace st ++ seeding_events w (user_bound st) (rows st).
Proof.
  intros _. remember (exec (create_admin_user w) st) as st' eqn:E.
  unfold create_admin_user, exec, try_except in E.
  unfold bind at 1 in E. rewrite query_first_by_username_run in E.
  cbv zeta in E. unfold seeding_events.
  destruct (user_bound st); [|subst st'; reflexivity].
  destruct (w_query_admin w); [subst st'; reflexivity|].
  destruct (find (has_username "edson.lemes") (rows st));
    [subst st'; reflexivity|].
  unfold session_add, session_commit in E.
  destruct (w_new_user w); [subst st'; trace_eq|].
  destruct (w_set_password w); [subst st'; trace_eq|].
  destruct (w_session_add w); [subst st'; trace_eq|].
  destruct (w_commit w); subst st'; trace_eq.
Qed.

Lemma emits_configure_extensions w :
  emits (configure_extensions w) (extension_events w).
Proof.
  intros st. unfold configure_extensions, extension_events, config_getitem.
  destruct (w_import_flask_login w); [trace_eq|].
  destruct (w_import_flask_mail w); [trace_eq|].
  destruct (w_login_manager w); [trace_eq|].
  destruct (w_mail_config w); [trace_eq|].
  destruct (w_mail_init w); [trace_eq|].
  run. proj.
  rewrite lookup_insert_ne by discriminate. rewrite lookup_insert_eq.
  destruct (w_makedirs w); [trace_eq|].
  destruct (w_import_routes w); trace_eq.
Qed.

#[export] Hint Resolve resolve_database_url_frame : frame.

Lemma run_all_emits blocks evss st :
  Forall2 emits blocks evss ->
  trace (run_all blocks st) = trace st ++ concat evss.
Proof.
  intros H. revert st.
  induction H as [|c evs blocks evss Hc _ IH]; intros st.
  - simpl. now rewrite app_nil_r.
  - simpl. rewrite IH, Hc. now rewrite <- app_assoc.
Qed.

Lemma user_bound_before_seeding w environ table :
  user_bound (run_all (blocks_before_seeding w environ) (initial_state table))
  = bound_after_import (w_import_models w).
Proof.
  change (blocks_before_seeding w environ) with
    (blocks_before_tables w environ ++ [create_tables w]).
  rewrite run_all_app. cbn [run_all fold_left].
  rewrite create_tables_user_bound, run_all_preserves.
  - apply orb_false_r.
  - unfold blocks_before_tables. frame_blocks.
Qed.

Lemma trace_before_seeding w environ table :
  imports_ok w = true ->
  trace (run_all (blocks_before_seeding w environ) (initial_state table)) =
    [ EvImportFlask; EvImportProxyFix; EvImportDb; EvFlask; EvSecretKey;
      EvProxyFix; EvDbConfig; EvDbInitApp; EvRouteHealth; EvAppContext;
      EvConnect ] ++ tables_events w.
Proof.
  intros Hw.
  rewrite (run_all_emits _
    [ []; [EvImportFlask; EvImportProxyFix; EvImportDb]; [EvFlask];
      [EvSecretKey; EvProxyFix]; [EvDbConfig]; [EvDbInitApp]; [EvRouteHealth];
      [EvAppContext]; []; [EvConnect]; tables_events w ]).
  - simpl. now rewrite app_nil_r.
  - unfold blocks_before_seeding.
    repeat (apply List.Forall2_cons;
            [ first [ apply emits_logging_info | now apply emits_import_guard
                    | apply emits_create_app | apply emits_basic_config
                    | apply emits_database_config | apply emits_init_database
                    | apply emits_register_health | apply emits_event
                    | apply emits_test_connection | apply emits_create_tables ]
            |]).
    apply List.Forall2_nil.
Qed.

Lemma trace_after_seeding w st :
  trace (run_all (blocks_after_seeding w) st) = trace st ++ extension_events w.
Proof.
  rewrite (run_all_emits _ [extension_events w; []]).
  - simpl. now rewrite app_nil_r.
  - repeat constructor;
      [apply emits_configure_extensions | apply emits_logging_info].
Qed.

(** The calls of a run that passes the import guard depend on the world and
    on the table only. *)
Lemma process_start_trace w environ table :
  imports_ok w = true ->
  trace (snd (process_start w environ table)) = startup_trace w table.
Proof.
  intros Hw. rewrite process_start_final by assumption.
  rewrite startup_blocks_split, !run_all_app, trace_after_seeding.
  cbn [run_all fold_left].
  destruct (state_before_seeding w environ table) as [Hrows Hsess].
  rewrite create_admin_user_trace by assumption.
  rewrite Hrows, user_bound_before_seeding, trace_before_seeding by assumption.
  unfold startup_trace. now rewrite <- !app_assoc.
Qed.

(** ** Which steps a run reaches *)

Lemma attempted_app ev l1 l2 :
  attempted ev (l1 ++ l2) = attempted ev l1 || attempted ev l2.
Proof.
  unfold attempted.
  destruct (bool_decide_reflect (ev ∈ l1)) as [H1|H1];
    destruct (bool_decide_reflect (ev ∈ l2)) as [H2|H2]; simpl;
    first [ apply bool_decide_eq_true | apply bool_decide_eq_false ];
    rewrite elem_of_app; tauto.
Qed.

Lemma executed_app s l1 l2 :
  executed s (l1 ++ l2) = executed s l1 || executed s l2.
Proof. apply attempted_app. Qed.

Lemma executed_tables s w :
  executed s (tables_events w) =
    match s with Tables => true | _ => false end.
Proof.
  unfold tables_events.
  destruct (w_import_models w) as [|e b]; [destruct (w_create_all w)|];
    destruct s; reflexivity.
Qed.

Lemma executed_seeding s w bound table :
  executed s (seeding_events w bound table) =
    match s with Seed => true | _ => false end.
Proof.
  unfold seeding_events.
  destruct bound; [|destruct s; reflexivity].
  destruct (w_query_admin w); [destruct s; reflexivity|].
  destruct (find (has_username "edson.lemes") table);
    [destruct s; reflexivity|].
  destruct (w_new_user w); [destruct s; reflexivity|].
  destruct (w_set_password w); [destruct s; reflexivity|].
  destruct (w_session_add w); [destruct s; reflexivity|].
  destruct (w_commit w); destruct s; reflexivity.
Qed.

Lemma executed_extensions s w :
  executed s (extension_events w) =
    match s with
    | DbInit | Probe | Tables | Seed => false
    | _ => reached s w
    end.
Proof.
  unfold extension_events, reached, extension_imports_ok, quiet.
  destruct (w_import_flask_login w); [destruct s; reflexivity|].
  destruct (w_import_flask_mail w); [destruct s; reflexivity|].
  destruct (w_login_manager w); [destruct s; reflexivity|].
  destruct (w_mail_config w); [destruct s; reflexivity|].
  destruct (w_mail_init w); [destruct s; reflexivity|].
  destruct (w_makedirs w); [destruct s; reflexivity|].
  destruct (w_import_routes w); destruct s; reflexivity.
Qed.

Lemma executed_startup s w table :
  executed s (startup_trace w table) = reached s w.
Proof.
  unfold startup_trace.
  rewrite !executed_app, executed_tables, executed_seeding,
    executed_extensions.
  destruct s; reflexivity.
Qed.

(** The numbered steps of a run: the liveness endpoint comes fourth, and
    steps 8 and 9 follow when the extension block got that far. *)
Lemma step_sequence_startup w table :
  step_sequence (startup_trace w table) =
    [1; 2; 3; 10; 4; 5; 6; 7]%nat
    ++ (if reached Upload w
        then 8%nat :: (if reached Routes w then [9%nat] else [])
        else []).
Proof.
  unfold startup_trace, tables_events, seeding_events, extension_events,
    reached, extension_imports_ok, quiet.
  destruct (w_import_models w) as [|e b];
    [destruct (w_create_all w)|]; cbn [import_failure bound_after_import];
    [ | | destruct b ];
    (destruct (w_query_admin w);
     [| destruct (find (has_username "edson.lemes") table);
        [| destruct (w_new_user w);
           [| destruct (w_set_password w);
              [| destruct (w_session_add w);
                 [| destruct (w_commit w)]]]]]);
    (destruct (w_import_flask_login w);
     [| destruct (w_import_flask_mail w);
        [| destruct (w_login_manager w);
           [| destruct (w_mail_config w);
              [| destruct (w_mail_init w);
                 [| destruct (w_makedirs w);
                    [| destruct (w_import_routes w)]]]]]]);
    reflexivity.
Qed.

(** ** Counting accounts *)

Lemma count_username_app u l1 l2 :
  count_username u (l1 ++ l2) = (count_username u l1 + count_username u l2)%nat.
Proof. unfold count_username. now rewrite filter_app, length_app. Qed.

Lemma find_none_count u table :
  find (has_username u) table = None -> count_username u table = 0%nat.
Proof.
  unfold count_username.
  induction table as [|r table IH]; simpl; [reflexivity|].
  destruct (has_username u r) eqn:Hr; [discriminate|]. intros Hf.
  rewrite filter_cons_False by (rewrite Hr; discriminate). auto.
Qed.

Lemma find_none_not_elem u table r :
  find (has_username u) table = None -> r ∈ table -> username r <> Some u.
Proof.
  intros Hf Hr Hu.
  apply list_elem_of_In in Hr.
  apply (find_none _ _ Hf) in Hr.
  unfold has_username in Hr. rewrite bool_decide_eq_false in Hr. tauto.
Qed.

(** ** Writes to the database *)

Lemma exit_trace w environ table :
  imports_ok w = false ->
  Forall foundational_import (trace (snd (process_start w environ table))).
Proof.
  intros Hw. rewrite process_start_exits by assumption. cbn [snd].
  set (st := add_log _ _).
  destruct (import_guard_exits w st Hw) as (e & evs & _ & _ & Htr & Hev).
  rewrite Htr. exact Hev.
Qed.

Lemma attempted_foundational ev tr :
  Forall foundational_import tr -> ~ foundational_import ev ->
  attempted ev tr = false.
Proof.
  intros Htr Hev. apply bool_decide_eq_false. intros Hin.
  rewrite Forall_forall in Htr. now apply Hev, Htr.
Qed.

(** When the query finds a row, nothing is added to the session and no
    commit is attempted. *)
Lemma no_write_when_found w table r ev :
  find (has_username "edson.lemes") table = Some r ->
  ev = EvSessionAdd \/ ev = EvCommit ->
  attempted ev (startup_trace w table) = false.
Proof.
  intros Hf Hev.
  unfold startup_trace, tables_events, seeding_events, extension_events.
  rewrite Hf, !attempted_app.
  destruct (w_import_models w) as [|e []]; [destruct (w_create_all w)| |];
    cbn [import_failure bound_after_import];
    destruct (w_query_admin w);
    (destruct (w_import_flask_login w);
     [| destruct (w_import_flask_mail w);
        [| destruct (w_login_manager w);
           [| destruct (w_mail_config w);
              [| destruct (w_mail_init w);
                 [| destruct (w_makedirs w);
                    [| destruct (w_import_routes w)]]]]]]);
    destruct Hev as [-> | ->]; reflexivity.
Qed.

Lemma find_some_of_elem u table r :
  r ∈ table -> username r = Some u ->
  exists r', find (has_username u) table = Some r'.
Proof.
  intros Hr Hu. destruct (find (has_username u) table) as [r'|] eqn:Hf.
  - now exists r'.
  - now destruct (find_none_not_elem _ _ _ Hf Hr).
Qed.

Global Instance app_created_quiet : Quiet_obs app_created.
Proof. now split. Qed.

Lemma only_raises_inject s e : only_raises s (inject s e).
Proof.
  split; [now destruct s|]. split; [now destruct s|].
  intros s' Hne. destruct s, s'; try reflexivity; congruence.
Qed.

(** ** Sample runs *)

(** A models import that fails before binding [User] makes the seeding
    block, which is still entered, raise [NameError]; the extension block
    runs all the same. *)
Example failed_models_import :
  let final :=
    snd (process_start
           (inject Tables (Exn "ImportError" "cannot import name 'User'"))
           ∅ []) in
  error_messages (logs final) =
    [ "❌ Table creation failed: cannot import name 'User'";
      "❌ Admin user creation failed: name 'User' is not defined" ] /\
  executed Routes (trace final) = true /\
  rows final = [].
Proof. vm_compute. repeat split. Qed.

(** A first start against an empty table seeds the admin account; a second
    start finds it and adds nothing. *)
Example two_starts :
  restarts [(all_ok, ∅); (all_ok, ∅)] [] = [admin_account].
Proof. vm_compute. reflexivity. Qed.

(** * The claims of the specification *)

(** ** C1: failure isolation between the startup steps *)

(** C1, as the spec states it, fails: when the login-manager configuration
    raises and nothing else does, the mail configuration that follows it is
    not executed.  The amended claim is proved at the end, with the
    properties that turn on what a call may raise. *)
Lemma extension_failure_skips_later_steps :
  ~ (forall s s' w environ table,
       only_raises s w -> quiet s w = false -> step_before s s' = true ->
       executed s' (trace (snd (process_start w environ table))) = true).
Proof.
  intros H.
  specialize (H Login Mail (inject Login (Exn "RuntimeError" "boom")) ∅ []
                (only_raises_inject _ _) eq_refl eq_refl).
  vm_compute in H. discriminate H.
Qed.

(** ** C2: the admin account is seeded at most once *)

(** C2: a process start inserts the admin account only when the query for
    its username finds no row, and it inserts nothing else; over any number
    of restarts against the same database, a table that held no such row
    ends with at most one, and a table that held some is not added to. *)
Theorem admin_seeded_at_most_once :
  (forall w environ table,
     rows (snd (process_start w environ table)) = table \/
     (find (has_username "edson.lemes") table = None /\
      rows (snd (process_start w environ table)) = table ++ [admin_account]))
  /\
  (forall runs table,
     (count_username "edson.lemes" (restarts runs table)
      <= Nat.max 1 (count_username "edson.lemes" table))%nat).
Proof.
  split; [apply process_start_rows|].
  induction runs as [|[w environ] runs IH]; intros table; simpl.
  - apply Nat.le_max_r.
  - destruct (process_start_rows w environ table) as [H|[Hf H]]; rewrite H.
    + apply IH.
    + etransitivity; [apply IH|].
      rewrite count_username_app, (find_none_count _ _ Hf).
      change (count_username "edson.lemes" [admin_account]) with 1%nat.
      lia.
Qed.

(** ** C3: an existing admin account is left as it is *)

(** C3: when the table already holds a row with the admin username, a
    process start leaves the whole table, that row included, as it was: it
    adds nothing to the session and attempts no commit. *)
Theorem existing_admin_untouched w environ table r :
  r ∈ table -> username r = Some "edson.lemes" ->
  rows (snd (process_start w environ table)) = table /\
  attempted EvSessionAdd (trace (snd (process_start w environ table))) = false /\
  attempted EvCommit (trace (snd (process_start w environ table))) = false.
Proof.
  intros Hr Hu.
  destruct (find_some_of_elem _ _ _ Hr Hu) as [r' Hf].
  split.
  - destruct (process_start_rows w environ table) as [H|[Hn _]]; [exact H|].
    congruence.
  - destruct (imports_ok w) eqn:Hw.
    + rewrite process_start_trace by assumption.
      split; apply (no_write_when_found w table r'); auto.
    + split; (apply attempted_foundational; [now apply exit_trace|]);
        unfold foundational_import; intuition discriminate.
Qed.

Lemma existing_admin_untouched_witness :
  let r := mkUser (Some "edson.lemes") (Some "E. Lemes") (Some "teacher")
                  (Some "old@senai.br") (Some (PasswordHash "old")) in
  rows (snd (process_start all_ok ∅ [r])) = [r].
Proof.
  intros r. apply (existing_admin_untouched all_ok ∅ [r] r).
  - apply list_elem_of_In. left. reflexivity.
  - reflexivity.
Defined.

(** ** C4: the deprecated scheme prefix is rewritten *)

(** C4, as the spec states it, fails for the empty string: it does not
    start with the deprecated prefix, yet it is not used as it is. *)
Lemma empty_database_url_not_used_as_is :
  ~ (forall w environ table url,
       imports_ok w = true ->
       environ !! "DATABASE_URL" = Some url ->
       (forall rest,
          url = "postgres://" +:+ rest ->
          database_uri (snd (process_start w environ table)) =
            Some (CStr ("postgresql://" +:+ rest))) /\
       (PyStr.startswith url "postgres://" = false ->
        database_uri (snd (process_start w environ table)) =
          Some (CStr url))).
Proof.
  intros H.
  destruct (H all_ok {[ "DATABASE_URL" := EmptyString ]} [] EmptyString)
    as [_ H']; [reflexivity | vm_compute; reflexivity |].
  specialize (H' eq_refl). vm_compute in H'. discriminate H'.
Qed.

(** C4, amended: a DATABASE_URL that starts with [postgres://] is stored
    with that leading prefix replaced by [postgresql://] and the rest
    unchanged; a non-empty DATABASE_URL that does not start with it is
    stored as it is. *)
Theorem database_url_normalized w environ table url :
  imports_ok w = true ->
  environ !! "DATABASE_URL" = Some url ->
  (forall rest,
     url = "postgres://" +:+ rest ->
     database_uri (snd (process_start w environ table)) =
       Some (CStr ("postgresql://" +:+ rest))) /\
  (url <> EmptyString ->
   PyStr.startswith url "postgres://" = false ->
   database_uri (snd (process_start w environ table)) = Some (CStr url)).
Proof.
  intros Hw Hurl. split.
  - intros rest ->. apply startup_database_uri; [assumption|].
    intros st. now apply resolve_deprecated.
  - intros Hne Hp. apply startup_database_uri; [assumption|].
    intros st. now apply resolve_other.
Qed.

Lemma database_url_normalized_witness :
  database_uri
    (snd (process_start all_ok
            {[ "DATABASE_URL" := "postgres://u:p@db.railway.app:5432/senai" ]}
            [])) =
    Some (CStr "postgresql://u:p@db.railway.app:5432/senai") /\
  database_uri
    (snd (process_start all_ok
            {[ "DATABASE_URL" := "mysql://postgres://x" ]} [])) =
    Some (CStr "mysql://postgres://x").
Proof.
  split.
  - destruct (database_url_normalized all_ok
                {[ "DATABASE_URL" :=
                     "postgres://u:p@db.railway.app:5432/senai" ]}
                [] "postgres://u:p@db.railway.app:5432/senai")
      as [H _]; [reflexivity | vm_compute; reflexivity |].
    exact (H "u:p@db.railway.app:5432/senai" eq_refl).
  - destruct (database_url_normalized all_ok
                {[ "DATABASE_URL" := "mysql://postgres://x" ]}
                [] "mysql://postgres://x")
      as [_ H]; [reflexivity | vm_compute; reflexivity |].
    apply H; [discriminate | reflexivity].
Defined.

(** ** C5: the fallback connection string *)

(** C5: with DATABASE_URL unset or empty, the connection string stored in
    the application configuration is [sqlite:///test.db]. *)
Theorem sqlite_fallback w environ table :
  imports_ok w = true ->
  environ !! "DATABASE_URL" = None \/
  environ !! "DATABASE_URL" = Some EmptyString ->
  database_uri (snd (process_start w environ table)) =
    Some (CStr "sqlite:///test.db").
Proof.
  intros Hw Henv. apply startup_database_uri; [assumption|]. intros st.
  destruct Henv; [now apply resolve_unset | now apply resolve_empty].
Qed.

Lemma sqlite_fallback_witness :
  database_uri (snd (process_start all_ok ∅ [])) =
    Some (CStr "sqlite:///test.db") /\
  database_uri
    (snd (process_start all_ok {[ "DATABASE_URL" := EmptyString ]} [])) =
    Some (CStr "sqlite:///test.db").
Proof.
  split.
  - apply (sqlite_fallback all_ok ∅ [] eq_refl). left. reflexivity.
  - apply (sqlite_fallback all_ok {[ "DATABASE_URL" := EmptyString ]} []
             eq_refl).
    right. vm_compute. reflexivity.
Defined.

(** ** C6: the answers of the liveness endpoint *)

(** C6, as the spec states it, fails: when building the error body raises as
    well, the handler answers nothing, the second exception leaves it. *)
Lemma health_error_body_can_raise :
  ~ (forall fault st,
       (fault {[ "status" := "healthy"; "app" := "running" ]} = None ->
        health_with (jsonify_with_fault fault) st =
          (Returned
             (mkResponse {[ "status" := "healthy"; "app" := "running" ]}
                         "application/json", 200), st)) /\
       (forall e,
          fault {[ "status" := "healthy"; "app" := "running" ]}
            = Some (Fails e) ->
          health_with (jsonify_with_fault fault) st =
            (Returned
               (mkResponse
                  {[ "status" := "unhealthy"; "error" := exn_str e ]}
                  "application/json", 500), st))).
Proof.
  intros H.
  destruct (H (fun _ => Some (Fails (Exn "RuntimeError" "no context")))
              (initial_state [])) as [_ H'].
  specialize (H' _ eq_refl). vm_compute in H'. discriminate H'.
Qed.

(** C6, amended: when the success payload is built without error the
    handler answers 200 with the body [status: healthy, app: running]; when
    building it raises an instance of [Exception] [e], the handler answers
    500 with the body [status: unhealthy, error: str(e)] provided building
    that body does not fail as well, and otherwise the second failure leaves
    the handler; a [BaseException] outside [Exception] is not intercepted. *)
Theorem health_answers fault st :
  (fault {[ "status" := "healthy"; "app" := "running" ]} = None ->
   health_with (jsonify_with_fault fault) st =
     (Returned
        (mkResponse {[ "status" := "healthy"; "app" := "running" ]}
                    "application/json", 200), st)) /\
  (forall e,
     fault {[ "status" := "healthy"; "app" := "running" ]} = Some (Fails e) ->
     (fault {[ "status" := "unhealthy"; "error" := exn_str e ]} = None ->
      health_with (jsonify_with_fault fault) st =
        (Returned
           (mkResponse {[ "status" := "unhealthy"; "error" := exn_str e ]}
                       "application/json", 500), st)) /\
     (forall e',
        fault {[ "status" := "unhealthy"; "error" := exn_str e ]}
          = Some (Fails e') ->
        health_with (jsonify_with_fault fault) st = (Raised e', st)) /\
     (forall code,
        fault {[ "status" := "unhealthy"; "error" := exn_str e ]}
          = Some (Aborts code) ->
        health_with (jsonify_with_fault fault) st = (Exited code, st))) /\
  (forall code,
     fault {[ "status" := "healthy"; "app" := "running" ]}
       = Some (Aborts code) ->
     health_with (jsonify_with_fault fault) st = (Exited code, st)).
Proof.
  unfold health_with, jsonify_with_fault, healthy_payload, unhealthy_payload.
  split; [|split].
  - intros H. run. rewrite H. reflexivity.
  - intros e H. repeat split.
    + intros He. run. rewrite H. run. rewrite He. reflexivity.
    + intros e' He. run. rewrite H. run. rewrite He. reflexivity.
    + intros code He. run. rewrite H. run. rewrite He. reflexivity.
  - intros code H. run. rewrite H. reflexivity.
Qed.

Lemma health_answers_witness :
  let fault := fun d : gmap string string =>
                 if bool_decide
                      (d = {[ "status" := "healthy"; "app" := "running" ]})
                 then Some (Fails (Exn "RuntimeError" "no application context"))
                 else None in
  health_with (jsonify_with_fault fault) (initial_state []) =
    (Returned
       (mkResponse
          {[ "status" := "unhealthy"; "error" := "no application context" ]}
          "application/json", 500),
     initial_state []).
Proof.
  intros fault.
  destruct (health_answers fault (initial_state [])) as (_ & H & _).
  destruct (H (Exn "RuntimeError" "no application context") eq_refl)
    as (H' & _).
  apply H'. reflexivity.
Defined.

(** ** C7: the import guard is the only fatal step *)



(** ** C8: the order of the ten steps *)

(** C8, as the spec states it, fails: the liveness endpoint is not exposed
    last. *)
Lemma liveness_endpoint_not_last :
  step_sequence (trace (snd (process_start all_ok ∅ [])))
  <> [1; 2; 3; 4; 5; 6; 7; 8; 9; 10]%nat.
Proof. vm_compute. discriminate. Qed.

(** C8, amended: a run that passes the import guard carries out the steps
    in the order 1, 2, 3, 10, 4, 5, 6, 7, 8, 9: the liveness endpoint is
    registered right after the database is bound and before the connection
    probe; steps 8 and 9 follow when the extension block got that far, as
    it does when no call raises. *)
Theorem startup_order w environ table :
  imports_ok w = true ->
  step_sequence (trace (snd (process_start w environ table))) =
    [1; 2; 3; 10; 4; 5; 6; 7]%nat
    ++ (if reached Upload w
        then 8%nat :: (if reached Routes w then [9%nat] else [])
        else []) /\
  (extension_imports_ok w = true ->
   (forall s, quiet s w = true) ->
   step_sequence (trace (snd (process_start w environ table))) =
     [1; 2; 3; 10; 4; 5; 6; 7; 8; 9]%nat).
Proof.
  intros Hw. rewrite process_start_trace by assumption.
  rewrite step_sequence_startup. split; [reflexivity|].
  intros Hext Hq. unfold reached.
  now rewrite Hext, (Hq Login), (Hq Mail), (Hq Upload).
Qed.

Lemma startup_order_witness :
  step_sequence (trace (snd (process_start all_ok ∅ []))) =
    [1; 2; 3; 10; 4; 5; 6; 7; 8; 9]%nat.
Proof.
  apply (proj2 (startup_order all_ok ∅ [] eq_refl)).
  - reflexivity.
  - intros s. destruct s; reflexivity.
Defined.

(** ** C10: the default secret key *)

(** C10: with SESSION_SECRET unset, a run that passes the import guard
    returns and leaves [railway-key-2024] as the application's secret key,
    whatever else the environment holds. *)
Theorem default_secret_key w environ table :
  environ !! "SESSION_SECRET" = None ->
  imports_ok w = true ->
  fst (process_start w environ table) = Returned tt /\
  secret_key (snd (process_start w environ table)) = Some "railway-key-2024".
Proof.
  intros Henv Hw. split; [now rewrite process_start_blocks|].
  rewrite startup_secret_key by assumption.
  unfold environ_get. now rewrite Henv.
Qed.

Lemma default_secret_key_witness :
  secret_key
    (snd (process_start all_ok
            {[ "DATABASE_URL" := "postgres://db/senai" ]} [])) =
    Some "railway-key-2024".
Proof.
  apply (default_secret_key all_ok
           {[ "DATABASE_URL" := "postgres://db/senai" ]} []);
    vm_compute; reflexivity.
Defined.

(** * Further properties of the script *)

(** ** The log of a run *)

Lemma says_logging_info m : says (logging_info m) [Log INFO m].
Proof. intros st. reflexivity. Qed.

Lemma says_event ev : says (modify (add_event ev)) [].
Proof. intros st. trace_eq. Qed.

Lemma says_import_guard w :
  imports_ok w = true ->
  says (import_guard w)
    [ Log INFO "✅ Flask imported"; Log INFO "✅ ProxyFix imported";
      Log INFO "✅ Database imported" ].
Proof.
  intros Hw st. unfold exec. rewrite import_guard_passes by assumption.
  trace_eq.
Qed.

Lemma says_create_app : says create_app [Log INFO "✅ Flask app created"].
Proof. intros st. unfold create_app. trace_eq. Qed.

Lemma says_basic_config environ :
  says (basic_config environ) [Log INFO "✅ Basic config set"].
Proof. intros st. unfold basic_config. trace_eq. Qed.

Lemma resolve_database_url_logs environ st :
  logs (exec (resolve_database_url environ) st) =
    logs st ++
    (if uses_fallback environ then [Log WARNING "Using SQLite fallback"]
     else []).
Proof.
  unfold resolve_database_url, uses_fallback.
  destruct (environ !! "DATABASE_URL") as [[|c url]|]; run;
    try reflexivity.
  destruct (PyStr.startswith (String c url) "postgres://");
    proj; now rewrite app_nil_r.
Qed.

Lemma says_database_config environ :
  says (database_config environ) (database_config_logs environ).
Proof.
  intros st. destruct (resolve_database_url_total environ) as [u Hu].
  unfold exec at 1. rewrite (database_config_run environ u st (Hu st)).
  proj. rewrite resolve_database_url_logs. unfold database_config_logs.
  now rewrite <- app_assoc.
Qed.

Lemma says_init_database w : says (init_database w) (init_database_logs w).
Proof.
  intros st. unfold init_database, init_database_logs.
  destruct (w_db_init_app w); trace_eq.
Qed.

Lemma says_register_health : says register_health [].
Proof. intros st. unfold register_health. trace_eq. Qed.

Lemma says_test_connection w :
  says (test_connection w) (test_connection_logs w).
Proof.
  intros st. unfold test_connection, test_connection_logs.
  destruct (w_engine_connect w); trace_eq.
Qed.

Lemma says_create_tables w : says (create_tables w) (tables_logs w).
Proof.
  intros st. unfold create_tables, import_models, tables_logs.
  destruct (w_import_models w) as [|e []]; [destruct (w_create_all w)| |];
    trace_eq.
Qed.

Lemma create_admin_user_logs w st :
  logs (exec (create_admin_user w) st) =
    logs st ++ seeding_logs w (user_bound st) (rows st).
Proof.
  remember (exec (create_admin_user w) st) as st' eqn:E.
  unfold create_admin_user, exec, try_except in E.
  unfold bind at 1 in E. rewrite query_first_by_username_run in E.
  cbv zeta in E. unfold seeding_logs.
  destruct (user_bound st); [|subst st'; reflexivity].
  destruct (w_query_admin w); [subst st'; reflexivity|].
  destruct (find (has_username "edson.lemes") (rows st));
    [subst st'; proj; now rewrite app_nil_r|].
  unfold session_add, session_commit in E.
  destruct (w_new_user w); [subst st'; trace_eq|].
  destruct (w_set_password w); [subst st'; trace_eq|].
  destruct (w_session_add w); [subst st'; trace_eq|].
  destruct (w_commit w); subst st'; trace_eq.
Qed.

Lemma says_configure_extensions w :
  says (configure_extensions w) (extension_logs w).
Proof.
  intros st. unfold configure_extensions, extension_logs, config_getitem.
  destruct (w_import_flask_login w); [trace_eq|].
  destruct (w_import_flask_mail w); [trace_eq|].
  destruct (w_login_manager w); [trace_eq|].
  destruct (w_mail_config w); [trace_eq|].
  destruct (w_mail_init w); [trace_eq|].
  run. proj.
  rewrite lookup_insert_ne by discriminate. rewrite lookup_insert_eq.
  destruct (w_makedirs w); [trace_eq|].
  destruct (w_import_routes w); trace_eq.
Qed.

Lemma run_all_says blocks ls st :
  Forall2 says blocks ls ->
  logs (run_all blocks st) = logs st ++ concat ls.
Proof.
  intros H. revert st.
  induction H as [|c l blocks ls Hc _ IH]; intros st.
  - simpl. now rewrite app_nil_r.
  - simpl. rewrite IH, Hc. now rewrite <- app_assoc.
Qed.

Lemma logs_before_seeding w environ table :
  imports_ok w = true ->
  logs (run_all (blocks_before_seeding w environ) (initial_state table)) =
    [ Log INFO "🚀 STARTING RAILWAY APP..."; Log INFO "✅ Flask imported";
      Log INFO "✅ ProxyFix imported"; Log INFO "✅ Database imported";
      Log INFO "✅ Flask app created"; Log INFO "✅ Basic config set" ]
    ++ database_config_logs environ
    ++ init_database_logs w
    ++ [Log INFO "🔧 Initializing in app context..."]
    ++ test_connection_logs w
    ++ tables_logs w.
Proof.
  intros Hw.
  rewrite (run_all_says _
    [ [Log INFO "🚀 STARTING RAILWAY APP..."];
      [ Log INFO "✅ Flask imported"; Log INFO "✅ ProxyFix imported";
        Log INFO "✅ Database imported" ];
      [Log INFO "✅ Flask app created"]; [Log INFO "✅ Basic config set"];
      database_config_logs environ; init_database_logs w; []; [];
      [Log INFO "🔧 Initializing in app context..."];
      test_connection_logs w; tables_logs w ]).
  - cbn [concat initial_state logs app]. now rewrite app_nil_r.
  - unfold blocks_before_seeding.
    repeat (apply List.Forall2_cons;
            [ first [ apply says_logging_info | now apply says_import_guard
                    | apply says_create_app | apply says_basic_config
                    | apply says_database_config | apply says_init_database
                    | apply says_register_health | apply says_event
                    | apply says_test_connection | apply says_create_tables ]
            |]).
    apply List.Forall2_nil.
Qed.

Lemma logs_after_seeding w st :
  logs (run_all (blocks_after_seeding w) st) =
    logs st ++ extension_logs w ++ [Log INFO "🎉 APPLICATION READY!"].
Proof.
  rewrite (run_all_says _
             [extension_logs w; [Log INFO "🎉 APPLICATION READY!"]]).
  - cbn [concat]. now rewrite app_nil_r.
  - apply List.Forall2_cons; [apply says_configure_extensions|].
    apply List.Forall2_cons; [apply says_logging_info|].
    apply List.Forall2_nil.
Qed.

(** The log of a run that passes the import guard depends on the world, the
    environment and the table only. *)
Lemma process_start_logs w environ table :
  imports_ok w = true ->
  logs (snd (process_start w environ table)) = startup_logs w environ table.
Proof.
  intros Hw. rewrite process_start_final by assumption.
  rewrite startup_blocks_split, !run_all_app, logs_after_seeding.
  cbn [run_all fold_left].
  destruct (state_before_seeding w environ table) as [Hrows _].
  rewrite create_admin_user_logs.
  rewrite Hrows, user_bound_before_seeding, logs_before_seeding by assumption.
  unfold startup_logs. now rewrite <- !app_assoc.
Qed.

(** ** Errors in the log *)

Lemma error_messages_app l1 l2 :
  error_messages (l1 ++ l2) = [] <->
  error_messages l1 = [] /\ error_messages l2 = [].
Proof. unfold error_messages. rewrite omap_app. apply app_nil. Qed.

Lemma errors_database_config environ :
  error_messages (database_config_logs environ) = [].
Proof. unfold database_config_logs. now destruct (uses_fallback environ). Qed.

Lemma errors_init_database w :
  error_messages (init_database_logs w) = [] <-> ok (w_db_init_app w) = true.
Proof.
  unfold init_database_logs. destruct (w_db_init_app w); simpl;
    split; intros H; (reflexivity || discriminate H).
Qed.

Lemma errors_test_connection w :
  error_messages (test_connection_logs w) = [] <->
  ok (w_engine_connect w) = true.
Proof.
  unfold test_connection_logs. destruct (w_engine_connect w); simpl;
    split; intros H; (reflexivity || discriminate H).
Qed.

Lemma errors_tables w :
  error_messages (tables_logs w) = [] <-> quiet Tables w = true.
Proof.
  unfold tables_logs, quiet.
  destruct (w_import_models w) as [|e b]; [destruct (w_create_all w)|];
    simpl; split; intros H; (reflexivity || discriminate H).
Qed.

Lemma errors_seeding w bound table :
  error_messages (seeding_logs w bound table) = [] <->
  bound
  && ok (w_query_admin w)
  && (bool_decide (is_Some (find (has_username "edson.lemes") table))
      || (ok (w_new_user w) && ok (w_set_password w)
          && ok (w_session_add w) && ok (w_commit w))) = true.
Proof.
  unfold seeding_logs.
  destruct bound; [|simpl; split; intros H; discriminate H].
  destruct (w_query_admin w); [simpl; split; intros H; discriminate H|].
  destruct (find (has_username "edson.lemes") table);
    [simpl; split; reflexivity|].
  destruct (w_new_user w); [simpl; split; intros H; discriminate H|].
  destruct (w_set_password w); [simpl; split; intros H; discriminate H|].
  destruct (w_session_add w); [simpl; split; intros H; discriminate H|].
  destruct (w_commit w); simpl; split; intros H;
    (reflexivity || discriminate H).
Qed.

Lemma errors_extensions w :
  error_messages (extension_logs w) = [] <->
  extension_imports_ok w && quiet Login w && quiet Mail w
  && quiet Upload w && quiet Routes w = true.
Proof.
  unfold extension_logs, extension_imports_ok, quiet.
  destruct (w_import_flask_login w);
    [simpl; split; intros H; discriminate H|].
  destruct (w_import_flask_mail w);
    [simpl; split; intros H; discriminate H|].
  destruct (w_login_manager w); [simpl; split; intros H; discriminate H|].
  destruct (w_mail_config w); [simpl; split; intros H; discriminate H|].
  destruct (w_mail_init w); [simpl; split; intros H; discriminate H|].
  destruct (w_makedirs w); [simpl; split; intros H; discriminate H|].
  destruct (w_import_routes w); simpl; split; intros H;
    (reflexivity || discriminate H).
Qed.

Lemma errors_startup_logs w environ table :
  error_messages (startup_logs w environ table) = [] <->
  clean_run w table = true.
Proof.
  unfold startup_logs, clean_run.
  rewrite !error_messages_app, errors_init_database, errors_test_connection,
    errors_tables, errors_seeding, errors_extensions, !andb_true_iff.
  pose proof (errors_database_config environ) as Hdb.
  split.
  - tauto.
  - intros H. repeat split; solve [reflexivity | exact Hdb | tauto].
Qed.

(** ** What a run leaves in the table and on the application object *)

Lemma create_admin_user_rows_exact w st :
  session st = [] ->
  rows (exec (create_admin_user w) st) =
    if user_bound st
       && ok (w_query_admin w)
       && negb (bool_decide
                  (is_Some (find (has_username "edson.lemes") (rows st))))
       && ok (w_new_user w) && ok (w_set_password w)
       && ok (w_session_add w) && ok (w_commit w)
    then rows st ++ [admin_account]
    else rows st.
Proof.
  intros Hs. remember (exec (create_admin_user w) st) as st' eqn:E.
  unfold create_admin_user, exec, try_except in E.
  unfold bind at 1 in E. rewrite query_first_by_username_run in E.
  cbv zeta in E.
  destruct (user_bound st); [|subst st'; reflexivity].
  destruct (w_query_admin w); [subst st'; reflexivity|].
  destruct (find (has_username "edson.lemes") (rows st));
    [subst st'; reflexivity|].
  unfold session_add, session_commit in E. run in E.
  destruct (w_new_user w); [subst st'; reflexivity|].
  destruct (w_set_password w); [subst st'; reflexivity|].
  destruct (w_session_add w); [subst st'; reflexivity|].
  destruct (w_commit w); [subst st'; reflexivity|].
  subst st'. simpl. now rewrite Hs.
Qed.

Lemma process_start_rows_exact w environ table :
  imports_ok w = true ->
  rows (snd (process_start w environ table)) =
    if seeds w table then table ++ [admin_account] else table.
Proof.
  intros Hw. rewrite process_start_final by assumption.
  rewrite startup_blocks_split, !run_all_app, after_seeding_rows.
  destruct (state_before_seeding w environ table) as [Hrows Hsess].
  cbn [run_all fold_left].
  rewrite create_admin_user_rows_exact by assumption.
  now rewrite Hrows, user_bound_before_seeding.
Qed.

Lemma find_some_count u table r :
  find (has_username u) table = Some r ->
  (1 <= count_username u table)%nat.
Proof.
  unfold count_username.
  induction table as [|r' table IH]; simpl; [discriminate|].
  destruct (has_username u r') eqn:Hr; intros Hf.
  - rewrite filter_cons_True by assumption. simpl. lia.
  - rewrite filter_cons_False by (rewrite Hr; discriminate). auto.
Qed.

Global Instance url_rules_quiet : Quiet_obs url_rules.
Proof. now split. Qed.
Global Instance login_view_quiet : Quiet_obs login_view.
Proof. now split. Qed.
Global Instance upload_folder_quiet : Quiet_obs upload_folder.
Proof. now split. Qed.
Global Instance track_modifications_quiet : Quiet_obs track_modifications.
Proof. now split. Qed.

Lemma upload_folder_set_config k v st :
  k <> "UPLOAD_FOLDER" ->
  upload_folder (set_config k v st) = upload_folder st.
Proof. intros Hk. unfold upload_folder. simpl. now apply lookup_insert_ne. Qed.

Lemma track_modifications_set_config k v st :
  k <> "SQLALCHEMY_TRACK_MODIFICATIONS" ->
  track_modifications (set_config k v st) = track_modifications st.
Proof.
  intros Hk. unfold track_modifications. simpl. now apply lookup_insert_ne.
Qed.

#[export] Hint Extern 1 (preserves upload_folder (modify (set_config _ _))) =>
  (apply preserves_modify; intros; apply upload_folder_set_config;
   discriminate) : frame.
#[export] Hint Extern 1
  (preserves track_modifications (modify (set_config _ _))) =>
  (apply preserves_modify; intros; apply track_modifications_set_config;
   discriminate) : frame.

(** The blocks around the registration of the liveness endpoint, around the
    database configuration and before the extension block. *)
Lemma startup_blocks_around_health w environ :
  startup_blocks w environ =
    [ logging_info "🚀 STARTING RAILWAY APP..."; import_guard w; create_app;
      basic_config environ; database_config environ; init_database w ]
    ++ [register_health]
    ++ modify (add_event EvAppContext) :: context_blocks w.
Proof. reflexivity. Qed.

Lemma startup_blocks_around_extensions w environ :
  startup_blocks w environ =
    (blocks_before_seeding w environ ++ [create_admin_user w])
    ++ [configure_extensions w]
    ++ [logging_info "🎉 APPLICATION READY!"].
Proof. reflexivity. Qed.

Lemma run_all_single c st : run_all [c] st = exec c st.
Proof. reflexivity. Qed.

Lemma register_health_url_rules st :
  url_rules (exec register_health st) = url_rules st ++ ["/health"].
Proof. reflexivity. Qed.

Lemma process_start_url_rules w environ table :
  url_rules (snd (process_start w environ table)) =
    if imports_ok w then ["/health"] else [].
Proof.
  destruct (imports_ok w) eqn:Hw.
  - rewrite process_start_final by assumption.
    rewrite startup_blocks_around_health, !run_all_app.
    rewrite run_all_preserves
      by (unfold context_blocks; frame_blocks).
    rewrite run_all_single, register_health_url_rules.
    now rewrite run_all_preserves by frame_blocks.
  - rewrite process_start_exits by assumption. cbn [snd].
    now rewrite (import_guard_frame url_rules).
Qed.

Lemma configure_extensions_login_view w st :
  login_view (exec (configure_extensions w) st) =
    if extension_imports_ok w && ok (w_login_manager w)
    then Some "login" else login_view st.
Proof.
  unfold configure_extensions, extension_imports_ok, config_getitem.
  destruct (w_import_flask_login w); [reflexivity|].
  destruct (w_import_flask_mail w); [reflexivity|].
  destruct (w_login_manager w); [reflexivity|].
  destruct (w_mail_config w); [reflexivity|].
  destruct (w_mail_init w); [reflexivity|].
  run. proj.
  rewrite lookup_insert_ne by discriminate. rewrite lookup_insert_eq.
  destruct (w_makedirs w); [reflexivity|].
  destruct (w_import_routes w); reflexivity.
Qed.

Lemma configure_extensions_upload_folder w st :
  upload_folder (exec (configure_extensions w) st) =
    if extension_imports_ok w && ok (w_login_manager w)
       && ok (w_mail_config w)
    then Some (CStr "/tmp/uploads") else upload_folder st.
Proof.
  assert (Hset : forall c : gmap string cfg_val,
            <["MAX_CONTENT_LENGTH" := CInt (16 * 1024 * 1024)]>
              (<["UPLOAD_FOLDER" := CStr "/tmp/uploads"]> c)
            !! "UPLOAD_FOLDER" = Some (CStr "/tmp/uploads")).
  { intros c. rewrite lookup_insert_ne by discriminate.
    apply lookup_insert_eq. }
  unfold configure_extensions, extension_imports_ok, config_getitem,
    upload_folder.
  destruct (w_import_flask_login w); [reflexivity|].
  destruct (w_import_flask_mail w); [reflexivity|].
  destruct (w_login_manager w); [reflexivity|].
  destruct (w_mail_config w); [reflexivity|].
  destruct (w_mail_init w); [run; proj; apply Hset|].
  run. proj. rewrite Hset.
  destruct (w_makedirs w); [proj; apply Hset|].
  destruct (w_import_routes w); proj; apply Hset.
Qed.

(** An observation that only the extension block changes. *)
Lemma extension_observation {X} (f : state -> X) `{!Quiet_obs f}
    (g : X -> X) w environ table :
  imports_ok w = true ->
  Forall (preserves f) (blocks_before_seeding w environ) ->
  preserves f (create_admin_user w) ->
  (forall st, f (exec (configure_extensions w) st) = g (f st)) ->
  f (snd (process_start w environ table)) = g (f (initial_state table)).
Proof.
  intros Hw Hpre Hseed Hext. rewrite process_start_final by assumption.
  rewrite startup_blocks_around_extensions, !run_all_app, !run_all_single.
  rewrite (preserves_logging_info f), Hext, Hseed.
  now rewrite run_all_preserves.
Qed.

Lemma process_start_login_view w environ table :
  imports_ok w = true ->
  login_view (snd (process_start w environ table)) =
    if extension_imports_ok w && ok (w_login_manager w)
    then Some "login" else None.
Proof.
  intros Hw.
  apply (extension_observation login_view
           (fun v => if extension_imports_ok w && ok (w_login_manager w)
                     then Some "login" else v)).
  - assumption.
  - unfold blocks_before_seeding. frame_blocks.
  - unfold_blocks. frame.
  - apply configure_extensions_login_view.
Qed.

Lemma process_start_upload_folder w environ table :
  imports_ok w = true ->
  upload_folder (snd (process_start w environ table)) =
    if extension_imports_ok w && ok (w_login_manager w)
       && ok (w_mail_config w)
    then Some (CStr "/tmp/uploads") else None.
Proof.
  intros Hw.
  apply (extension_observation upload_folder
           (fun v => if extension_imports_ok w && ok (w_login_manager w)
                        && ok (w_mail_config w)
                     then Some (CStr "/tmp/uploads") else v)).
  - assumption.
  - unfold blocks_before_seeding. frame_blocks.
  - unfold_blocks. frame.
  - apply configure_extensions_upload_folder.
Qed.

Lemma startup_track_modifications w environ table :
  imports_ok w = true ->
  track_modifications (snd (process_start w environ table)) =
    Some (CBool false).
Proof.
  intros Hw. rewrite process_start_final by assumption.
  destruct (resolve_database_url_total environ) as [u Hu].
  change (startup_blocks w environ) with
    ([ logging_info "🚀 STARTING RAILWAY APP..."; import_guard w; create_app;
       basic_config environ; database_config environ ]
     ++ [ init_database w; register_health;
          modify (add_event EvAppContext) ] ++ context_blocks w).
  rewrite run_all_app.
  rewrite run_all_preserves.
  - cbn [run_all fold_left]. unfold exec at 1.
    rewrite (database_config_run environ u) by apply Hu.
    unfold track_modifications. simpl. apply lookup_insert_eq.
  - unfold context_blocks. simpl app. frame_blocks.
Qed.

(** ** The stored connection string *)

Lemma startswith_split s p :
  PyStr.startswith s p = true -> s = p +:+ PyStr.drop (String.length p) s.
Proof.
  revert s. induction p as [|a p IH]; intros s H; [reflexivity|].
  destruct s as [|b s]; [discriminate H|].
  change ((if Ascii.eqb a b then PyStr.startswith s p else false) = true) in H.
  destruct (Ascii.eqb a b) eqn:Hab; [|discriminate H].
  apply Ascii.eqb_eq in Hab. subst b.
  change (String a s = String a (p +:+ PyStr.drop (String.length p) s)).
  f_equal. now apply IH.
Qed.

(** The value bound to [database_url] is never empty and never starts with
    the deprecated prefix. *)
Lemma resolve_database_url_modern environ :
  exists u,
    (forall st, result (resolve_database_url environ) st = Returned u) /\
    u <> EmptyString /\
    PyStr.startswith u "postgres://" = false.
Proof.
  destruct (environ !! "DATABASE_URL") as [[|c url]|] eqn:Henv.
  - exists "sqlite:///test.db". split; [|split; [discriminate|reflexivity]].
    intros st. now apply resolve_empty.
  - destruct (PyStr.startswith (String c url) "postgres://") eqn:Hp.
    + apply startswith_split in Hp.
      exists ("postgresql://" +:+
              PyStr.drop (String.length "postgres://") (String c url)).
      split; [|split; [discriminate|reflexivity]].
      intros st. apply resolve_deprecated. now rewrite Henv, <- Hp.
    + exists (String c url). split; [|split; [discriminate|exact Hp]].
      intros st. now apply resolve_other.
  - exists "sqlite:///test.db". split; [|split; [discriminate|reflexivity]].
    intros st. now apply resolve_unset.
Qed.

(** ** Warnings in the log *)

Lemma warning_messages_app l1 l2 :
  warning_messages (l1 ++ l2) = warning_messages l1 ++ warning_messages l2.
Proof. apply omap_app. Qed.

Lemma warnings_startup_logs w environ table :
  warning_messages (startup_logs w environ table) =
    if uses_fallback environ then ["Using SQLite fallback"] else [].
Proof.
  assert (H1 : warning_messages (init_database_logs w) = [])
    by (unfold init_database_logs; now destruct (w_db_init_app w)).
  assert (H2 : warning_messages (test_connection_logs w) = [])
    by (unfold test_connection_logs; now destruct (w_engine_connect w)).
  assert (H3 : warning_messages (tables_logs w) = []).
  { unfold tables_logs.
    destruct (w_import_models w); [destruct (w_create_all w)|]; reflexivity. }
  assert (H4 : forall b, warning_messages (seeding_logs w b table) = []).
  { intros b. unfold seeding_logs. destruct b; [|reflexivity].
    destruct (w_query_admin w); [reflexivity|].
    destruct (find (has_username "edson.lemes") table); [reflexivity|].
    destruct (w_new_user w); [reflexivity|].
    destruct (w_set_password w); [reflexivity|].
    destruct (w_session_add w); [reflexivity|].
    destruct (w_commit w); reflexivity. }
  assert (H5 : warning_messages (extension_logs w) = []).
  { unfold extension_logs.
    destruct (w_import_flask_login w); [reflexivity|].
    destruct (w_import_flask_mail w); [reflexivity|].
    destruct (w_login_manager w); [reflexivity|].
    destruct (w_mail_config w); [reflexivity|].
    destruct (w_mail_init w); [reflexivity|].
    destruct (w_makedirs w); [reflexivity|].
    destruct (w_import_routes w); reflexivity. }
  unfold startup_logs, database_config_logs.
  rewrite !warning_messages_app, H1, H2, H3, H4, H5.
  destruct (uses_fallback environ); reflexivity.
Qed.

(** ** Restarts *)

Lemma find_snoc_admin table :
  find (has_username "edson.lemes") table = None ->
  find (has_username "edson.lemes") (table ++ [admin_account]) =
    Some admin_account.
Proof.
  induction table as [|r table IH]; simpl; [reflexivity|].
  destruct (has_username "edson.lemes" r); [discriminate|]. exact IH.
Qed.

Lemma restarts_fixed runs table r :
  find (has_username "edson.lemes") table = Some r ->
  restarts runs table = table.
Proof.
  intros Hf. induction runs as [|[w environ] runs IH]; simpl; [reflexivity|].
  destruct (process_start_rows w environ table) as [H|[Hn _]];
    [now rewrite H | congruence].
Qed.

(** When the log of a run of the script that passes the import guard has
    no ERROR entry, every step was executed, the login view and the upload
    folder are configured, and the table holds an admin account. *)
Lemma script_error_free_fully_started w environ table :
  imports_ok w = true ->
  error_messages (logs (snd (process_start w environ table))) = [] ->
  (forall s, executed s (trace (snd (process_start w environ table))) = true)
  /\ login_view (snd (process_start w environ table)) = Some "login"
  /\ upload_folder (snd (process_start w environ table)) =
       Some (CStr "/tmp/uploads")
  /\ (1 <= count_username "edson.lemes"
             (rows (snd (process_start w environ table))))%nat.
Proof.
  intros Hw Herr.
  rewrite process_start_logs in Herr by assumption.
  apply errors_startup_logs in Herr. unfold clean_run in Herr.
  rewrite !andb_true_iff in Herr.
  destruct Herr as ((((Hi & Hc) & Ht) & ((Hb & Hq) & Hs))
                    & ((((Hx & HL) & HM) & HU) & HR)).
  assert (HM' := HM). unfold quiet in HM'. apply andb_true_iff in HM' as [HMc _].
  assert (HL' := HL). unfold quiet in HL'.
  split; [|split; [|split]].
  - intros s. rewrite process_start_trace, executed_startup by assumption.
    unfold reached. rewrite Hx, HL, HM, HU. now destruct s.
  - rewrite process_start_login_view by assumption. now rewrite Hx, HL'.
  - rewrite process_start_upload_folder by assumption.
    now rewrite Hx, HL', HMc.
  - rewrite process_start_rows_exact by assumption. unfold seeds.
    rewrite Hb, Hq.
    destruct (find (has_username "edson.lemes") table) as [r|] eqn:Hf.
    + rewrite bool_decide_eq_true_2 by eauto. simpl.
      now apply (find_some_count _ _ r).
    + rewrite bool_decide_eq_false_2 in Hs |- * by (intros [? ?]; discriminate).
      simpl in Hs. simpl. rewrite !andb_true_iff in Hs.
      destruct Hs as (((-> & ->) & ->) & ->). simpl.
      rewrite count_username_app.
      change (count_username "edson.lemes" [admin_account]) with 1%nat. lia.
Qed.

(** * Further properties: the statements *)

(** X1: the rule for [/health] is registered exactly once in every run that
    passes the import guard, whichever later calls raise, and not at all
    when the guard exits. *)
Theorem liveness_endpoint_registered w environ table :
  url_rules (snd (process_start w environ table)) =
    if imports_ok w then ["/health"] else [].
Proof. apply process_start_url_rules. Qed.

(** X5: over any number of restarts the table is left as it was or gets
    exactly one row appended, the admin account, and that only when it held
    no row with the admin username: no row is removed, changed or moved. *)
Theorem restarts_append_only runs table :
  restarts runs table = table \/
  (find (has_username "edson.lemes") table = None /\
   restarts runs table = table ++ [admin_account]).
Proof.
  revert table. induction runs as [|[w environ] runs IH]; intros table;
    simpl; [now left|].
  destruct (process_start_rows w environ table) as [H|[Hn H]]; rewrite H.
  - apply IH.
  - right. split; [assumption|].
    apply (restarts_fixed runs _ admin_account). now apply find_snoc_admin.
Qed.

(** X6: once the table holds a row with the admin username, no sequence of
    restarts changes the table, whatever the worlds and environments. *)
Theorem restarts_fixed_once_seeded runs table r :
  r ∈ table -> username r = Some "edson.lemes" ->
  restarts runs table = table.
Proof.
  intros Hr Hu. destruct (find_some_of_elem _ _ _ Hr Hu) as [r' Hf].
  now apply (restarts_fixed runs table r').
Qed.

Lemma restarts_fixed_once_seeded_witness :
  restarts [(all_ok, ∅); (inject Seed (Exn "OperationalError" "locked"), ∅)]
           [admin_account] = [admin_account].
Proof.
  apply (restarts_fixed_once_seeded _ [admin_account] admin_account).
  - apply list_elem_of_In. left. reflexivity.
  - reflexivity.
Defined.

(** X7: in a run that passes the import guard, binds [User] and in which
    no call of the seeding block raises, the table ends with an admin
    account: their number is the former one, or one if there was none. *)
Theorem seeding_goes_through w environ table :
  imports_ok w = true ->
  bound_after_import (w_import_models w) = true ->
  quiet Seed w = true ->
  count_username "edson.lemes" (rows (snd (process_start w environ table))) =
    Nat.max 1 (count_username "edson.lemes" table).
Proof.
  intros Hw Hb Hq. rewrite process_start_rows_exact by assumption.
  unfold seeds. rewrite Hb. unfold quiet in Hq.
  rewrite !andb_true_iff in Hq.
  destruct Hq as ((((-> & ->) & ->) & ->) & ->).
  destruct (find (has_username "edson.lemes") table) as [r|] eqn:Hf.
  - rewrite bool_decide_eq_true_2 by eauto. simpl.
    pose proof (find_some_count _ _ _ Hf). lia.
  - rewrite bool_decide_eq_false_2 by (intros [? ?]; discriminate). simpl.
    rewrite count_username_app, (find_none_count _ _ Hf).
    change (count_username "edson.lemes" [admin_account]) with 1%nat. lia.
Qed.

Lemma seeding_goes_through_witness :
  count_username "edson.lemes"
    (rows (snd (process_start
                  (inject Probe (Exn "OperationalError" "down")) ∅ []))) =
    1%nat.
Proof.
  apply (seeding_goes_through
           (inject Probe (Exn "OperationalError" "down")) ∅ []);
    reflexivity.
Defined.

(** X8: a SESSION_SECRET that is set is used as the secret key as it is,
    the empty string included: unlike DATABASE_URL, an empty value does not
    fall back to the default. *)
Theorem session_secret_used_verbatim w environ table v :
  imports_ok w = true ->
  environ !! "SESSION_SECRET" = Some v ->
  secret_key (snd (process_start w environ table)) = Some v.
Proof.
  intros Hw Hv. rewrite startup_secret_key by assumption.
  unfold environ_get. now rewrite Hv.
Qed.

Lemma session_secret_used_verbatim_witness :
  secret_key
    (snd (process_start all_ok {[ "SESSION_SECRET" := EmptyString ]} [])) =
    Some EmptyString.
Proof.
  apply (session_secret_used_verbatim all_ok
           {[ "SESSION_SECRET" := EmptyString ]} [] EmptyString);
    vm_compute; reflexivity.
Defined.

(** X9: in every run that passes the import guard the connection string
    stored in the configuration is a non-empty string that does not start
    with the deprecated prefix, and modification tracking is off. *)
Theorem stored_uri_is_modern w environ table :
  imports_ok w = true ->
  (exists u,
     database_uri (snd (process_start w environ table)) = Some (CStr u) /\
     u <> EmptyString /\
     PyStr.startswith u "postgres://" = false) /\
  track_modifications (snd (process_start w environ table)) =
    Some (CBool false).
Proof.
  intros Hw. split; [|now apply startup_track_modifications].
  destruct (resolve_database_url_modern environ) as (u & Hu & Hne & Hp).
  exists u. split; [now apply startup_database_uri | now split].
Qed.

Lemma stored_uri_is_modern_witness :
  track_modifications
    (snd (process_start all_ok
            {[ "DATABASE_URL" := "postgres://postgres://db" ]} [])) =
    Some (CBool false).
Proof.
  apply (stored_uri_is_modern all_ok
           {[ "DATABASE_URL" := "postgres://postgres://db" ]} []).
  reflexivity.
Defined.

(** X10: the rewrite of the connection string is idempotent: a start whose
    DATABASE_URL is the connection string stored by an earlier start stores
    the same string. *)
Theorem normalisation_idempotent w w' environ table table' u :
  imports_ok w = true -> imports_ok w' = true ->
  database_uri (snd (process_start w environ table)) = Some (CStr u) ->
  database_uri
    (snd (process_start w' (<["DATABASE_URL" := u]> environ) table')) =
    Some (CStr u).
Proof.
  intros Hw Hw' Hu.
  destruct (resolve_database_url_modern environ) as (u0 & Hu0 & Hne & Hp).
  rewrite (startup_database_uri w environ table u0 Hw Hu0) in Hu.
  injection Hu as <-.
  apply startup_database_uri; [assumption|]. intros st.
  apply resolve_other; [apply lookup_insert_eq | assumption | assumption].
Qed.

Lemma normalisation_idempotent_witness :
  database_uri
    (snd (process_start all_ok
            (<["DATABASE_URL" := "postgresql://db/senai"]>
               {[ "DATABASE_URL" := "postgres://db/senai" ]}) [])) =
    Some (CStr "postgresql://db/senai").
Proof.
  apply (normalisation_idempotent all_ok all_ok
           {[ "DATABASE_URL" := "postgres://db/senai" ]} [] []
           "postgresql://db/senai");
    vm_compute; reflexivity.
Defined.

(** X11: how far the extension block configures the application: the login
    view is set when the two extension imports and the login manager
    returned; UPLOAD_FOLDER is set when the mail settings were evaluated as
    well; the directory is created only if the mail initialisation returned
    too, so the folder can be configured and never created. *)
Theorem extension_block_partial_configuration w environ table :
  imports_ok w = true ->
  login_view (snd (process_start w environ table)) =
    (if extension_imports_ok w && ok (w_login_manager w)
     then Some "login" else None) /\
  upload_folder (snd (process_start w environ table)) =
    (if extension_imports_ok w && ok (w_login_manager w)
        && ok (w_mail_config w)
     then Some (CStr "/tmp/uploads") else None) /\
  executed Upload (trace (snd (process_start w environ table))) =
    extension_imports_ok w && ok (w_login_manager w)
    && ok (w_mail_config w) && ok (w_mail_init w).
Proof.
  intros Hw. split; [now apply process_start_login_view|].
  split; [now apply process_start_upload_folder|].
  rewrite process_start_trace, executed_startup by assumption.
  unfold reached, quiet. now rewrite !andb_assoc.
Qed.

Lemma extension_block_partial_configuration_witness :
  let w := mkWorld None None None None None ImportOk None None None None None
             None None None None None (Some (Exn "RuntimeError" "smtp"))
             None None in
  upload_folder (snd (process_start w ∅ [])) = Some (CStr "/tmp/uploads") /\
  executed Upload (trace (snd (process_start w ∅ []))) = false.
Proof.
  intros w.
  destruct (extension_block_partial_configuration w ∅ [] eq_refl)
    as (_ & H1 & H2).
  split; [exact H1 | exact H2].
Defined.

(** X12: the fallback to the local database is announced by one WARNING,
    and a run that passes the import guard logs no other warning. *)
Theorem fallback_is_announced w environ table :
  imports_ok w = true ->
  (environ !! "DATABASE_URL" = None \/
   environ !! "DATABASE_URL" = Some EmptyString ->
   warning_messages (logs (snd (process_start w environ table))) =
     ["Using SQLite fallback"]) /\
  (forall c url,
     environ !! "DATABASE_URL" = Some (String c url) ->
     warning_messages (logs (snd (process_start w environ table))) = []).
Proof.
  intros Hw. rewrite process_start_logs, warnings_startup_logs by assumption.
  unfold uses_fallback. split.
  - intros [H|H]; now rewrite H.
  - intros c url H. now rewrite H.
Qed.

Lemma fallback_is_announced_witness :
  warning_messages (logs (snd (process_start all_ok ∅ []))) =
    ["Using SQLite fallback"].
Proof.
  apply (fallback_is_announced all_ok ∅ [] eq_refl). left. reflexivity.
Defined.

(** ** The user loader and the entry point *)

(** X13: the user loader never raises: an identifier that is not an
    integer, an unbound [User], or a query that raises or exits all make it
    return [None]; otherwise it returns what the query returned. *)
Theorem load_user_never_raises py_int query_get user_id st :
  (exists r, result (load_user py_int query_get user_id) st = Returned r) /\
  (user_bound st = false ->
   load_user py_int query_get user_id st = (Returned None, st)) /\
  (forall e, py_int user_id = inl e ->
             load_user py_int query_get user_id st = (Returned None, st)) /\
  (forall n, user_bound st = true -> py_int user_id = inr n ->
             match query_get n st with
             | (Returned r, st') =>
                 load_user py_int query_get user_id st = (Returned r, st')
             | (_, st') =>
                 load_user py_int query_get user_id st = (Returned None, st')
             end).
Proof.
  unfold load_user, try_bare, result. run.
  destruct (user_bound st) eqn:Hb; simpl.
  - destruct (py_int user_id) as [e|n] eqn:Hi.
    + split; [now exists None|]. split; [discriminate|].
      split; [reflexivity | discriminate].
    + split; [destruct (query_get n st) as [[r|e|c] st']; simpl; eauto|].
      split; [discriminate|]. split; [discriminate|].
      intros n' _ Hn. injection Hn as <-.
      now destruct (query_get n st) as [[r|e|c] st'].
  - split; [now exists None|]. split; [reflexivity|].
    split; [reflexivity | discriminate].
Qed.

Lemma load_user_never_raises_witness :
  let py_int := fun s : string =>
                  if String.eqb s "7" then inr 7
                  else inl (Exn "ValueError" "invalid literal for int()") in
  let query_get := fun _ : Z => @raise (option User)
                                  (Exn "OperationalError" "connection lost") in
  let st := snd (process_start all_ok ∅ []) in
  load_user py_int query_get "7; DROP TABLE user" st = (Returned None, st) /\
  load_user py_int query_get "7" st = (Returned None, st).
Proof.
  intros py_int query_get st. split.
  - destruct (load_user_never_raises py_int query_get "7; DROP TABLE user" st)
      as (_ & _ & H & _).
    apply (H (Exn "ValueError" "invalid literal for int()")). reflexivity.
  - destruct (load_user_never_raises py_int query_get "7" st)
      as (_ & _ & _ & H).
    apply (H 7); reflexivity.
Defined.

Lemma module_body_returns w environ table :
  imports_ok w = true ->
  railway_simple_app w environ (initial_state table) =
    (Returned tt, snd (process_start w environ table)).
Proof.
  intros Hw. change (railway_simple_app w environ (initial_state table))
    with (process_start w environ table).
  now rewrite process_start_blocks.
Qed.

(** X14: run as a program with the import guard passed, the file starts the
    server on all interfaces with the debugger off, on port 5000 when PORT
    is unset and on the integer PORT holds otherwise, after the whole
    startup sequence and one more log entry. *)
Theorem main_starts_server py_int app_run w environ table p :
  imports_ok w = true ->
  (environ !! "PORT" = None /\ p = 5000) \/
  (exists text, environ !! "PORT" = Some text /\ py_int text = inr p) ->
  module_run true py_int app_run w environ (initial_state table) =
    app_run (mkServer "0.0.0.0" p false)
      (add_log (Log INFO ("🚀 Starting on port " +:+ str_of_Z p))
         (snd (process_start w environ table))).
Proof.
  intros Hw Hp. unfold module_run.
  rewrite (bind_returned _ _ _ _ _ (module_body_returns w environ table Hw)).
  unfold main_block.
  destruct Hp as [[Hn ->] | (text & Ht & Hi)].
  - rewrite Hn. reflexivity.
  - rewrite Ht, Hi. reflexivity.
Qed.

Lemma main_starts_server_witness :
  let py_int := fun s : string =>
                  if String.eqb s "8080" then inr 8080
                  else inl (Exn "ValueError" "invalid literal for int()") in
  module_run true py_int (fun _ => ret tt) all_ok ∅ (initial_state []) =
    (Returned tt,
     add_log (Log INFO "🚀 Starting on port 5000")
       (snd (process_start all_ok ∅ []))).
Proof.
  intros py_int.
  apply (main_starts_server py_int (fun _ => ret tt) all_ok ∅ [] 5000).
  - reflexivity.
  - left. split; reflexivity.
Defined.

(** X15: a PORT that is not an integer makes the program end with the
    uncaught exception of [int], after the startup sequence has run to its
    end and without the server being started. *)
Theorem malformed_port_raises_after_startup
    py_int app_run w environ table text e :
  imports_ok w = true ->
  environ !! "PORT" = Some text ->
  py_int text = inl e ->
  module_run true py_int app_run w environ (initial_state table) =
    (Raised e, snd (process_start w environ table)).
Proof.
  intros Hw Ht Hi. unfold module_run.
  rewrite (bind_returned _ _ _ _ _ (module_body_returns w environ table Hw)).
  unfold main_block. rewrite Ht, Hi. reflexivity.
Qed.

Lemma malformed_port_raises_after_startup_witness :
  let py_int := fun s : string =>
                  if String.eqb s "8080" then inr 8080
                  else inl (Exn "ValueError" "invalid literal for int()") in
  let final :=
    module_run true py_int (fun _ => sys_exit 0) all_ok
      {[ "PORT" := "http" ]} (initial_state []) in
  fst final = Raised (Exn "ValueError" "invalid literal for int()") /\
  rows (snd final) = [admin_account].
Proof.
  intros py_int final. subst final.
  rewrite (malformed_port_raises_after_startup py_int (fun _ => sys_exit 0)
             all_ok {[ "PORT" := "http" ]} [] "http"
             (Exn "ValueError" "invalid literal for int()"));
    [ split; reflexivity | reflexivity | vm_compute; reflexivity
    | reflexivity ].
Defined.

(** X16: the server is never started when the file is imported rather than
    run, or when the import guard exits: the file then does what the module
    body does and nothing more. *)
Theorem server_not_started_unless_main
    name_is_main py_int app_run w environ table :
  name_is_main = false \/ imports_ok w = false ->
  module_run name_is_main py_int app_run w environ (initial_state table) =
    process_start w environ table.
Proof.
  intros H. unfold module_run.
  destruct (imports_ok w) eqn:Hw.
  - destruct H as [-> | H]; [|discriminate H].
    rewrite (bind_returned _ _ _ _ _ (module_body_returns w environ table Hw)).
    unfold ret. now rewrite process_start_blocks.
  - pose proof (process_start_exits w environ table Hw) as He.
    unfold process_start in He |- *.
    now rewrite (bind_exited _ _ _ _ _ He).
Qed.

Lemma server_not_started_unless_main_witness :
  module_run false (fun _ => inr 0) (fun _ => sys_exit 3) all_ok ∅
    (initial_state []) = process_start all_ok ∅ [].
Proof.
  apply (server_not_started_unless_main false (fun _ => inr 0)
           (fun _ => sys_exit 3) all_ok ∅ []).
  left. reflexivity.
Defined.

(** * The full exception hierarchy *)

(** With no statement raising outside [Exception], the script of [Full] is
    the script. *)
Lemma full_no_aborts w environ table :
  Full.process_start no_aborts w environ table = process_start w environ table.
Proof. reflexivity. Qed.

(** ** Records cut at the first statement that raises outside [Exception] *)

Lemma first_abort_none aborts tr :
  Forall (fun ev => aborts ev = None) tr -> first_abort aborts tr = None.
Proof.
  induction 1 as [|ev tr Hev _ IH]; simpl; [reflexivity|]. now rewrite Hev.
Qed.

Lemma first_abort_none_inv aborts tr :
  first_abort aborts tr = None -> Forall (fun ev => aborts ev = None) tr.
Proof.
  induction tr as [|ev tr IH]; simpl; [constructor|].
  destruct (aborts ev) eqn:Hev; [discriminate|]. intros H.
  constructor; auto.
Qed.

Lemma first_abort_at aborts evs ev code rest :
  Forall (fun ev => aborts ev = None) evs -> aborts ev = Some code ->
  first_abort aborts ((evs ++ [ev]) ++ rest) = Some code /\
  cut aborts ((evs ++ [ev]) ++ rest) = evs ++ [ev].
Proof.
  intros Hevs Hev. induction Hevs as [|ev' evs Hev' _ IH]; simpl.
  - now rewrite Hev.
  - rewrite Hev'. destruct IH as [IH1 IH2]. now rewrite IH2.
Qed.

(** ** Statements that only add to the log and to the record *)

Section Grows.
Lemma grows_ret {A} (x : A) : grows (ret x).
Proof. intros st. exists [], []. now rewrite !app_nil_r. Qed.

Lemma grows_raise {A} e : grows (@raise A e).
Proof. intros st. exists [], []. now rewrite !app_nil_r. Qed.

Lemma grows_sys_exit {A} n : grows (@sys_exit A n).
Proof. intros st. exists [], []. now rewrite !app_nil_r. Qed.

Lemma grows_get {Y} (g : state -> Y) : grows (get g).
Proof. intros st. exists [], []. now rewrite !app_nil_r. Qed.

Lemma grows_state f :
  (forall st, trace (f st) = trace st) -> (forall st, logs (f st) = logs st) ->
  grows (modify f).
Proof.
  intros Ht Hl st. exists [], []. unfold exec. simpl.
  now rewrite Ht, Hl, !app_nil_r.
Qed.

Lemma grows_add_log l : grows (modify (add_log l)).
Proof. intros st. exists [], [l]. split; [now rewrite app_nil_r|reflexivity]. Qed.

Lemma grows_add_event ev : grows (modify (add_event ev)).
Proof. intros st. exists [ev], []. split; [reflexivity|now rewrite app_nil_r]. Qed.

Lemma grows_bind {A B} (c : M A) (k : A -> M B) :
  grows c -> (forall x, grows (k x)) -> grows (bind c k).
Proof.
  intros Hc Hk st. destruct (Hc st) as (evs & l & Ht & Hl).
  unfold exec, bind in *. destruct (c st) as [[x|e|n] st1]; simpl in *;
    try (now exists evs, l).
  destruct (Hk x st1) as (evs' & l' & Ht' & Hl'). unfold exec in *.
  exists (evs ++ evs'), (l ++ l').
  now rewrite Ht', Hl', Ht, Hl, !app_assoc.
Qed.

Lemma grows_try {A} (c : M A) h :
  grows c -> (forall e, grows (h e)) -> grows (try_except c h).
Proof.
  intros Hc Hh st. destruct (Hc st) as (evs & l & Ht & Hl).
  unfold exec, try_except in *. destruct (c st) as [[x|e|n] st1]; simpl in *;
    try (now exists evs, l).
  destruct (Hh e st1) as (evs' & l' & Ht' & Hl'). unfold exec in *.
  exists (evs ++ evs'), (l ++ l').
  now rewrite Ht', Hl', Ht, Hl, !app_assoc.
Qed.

Lemma grows_if {A} (b : bool) (c1 c2 : M A) :
  grows c1 -> grows c2 -> grows (if b then c1 else c2).
Proof. now destruct b. Qed.

Lemma grows_call ev o : grows (call ev o).
Proof.
  unfold call. apply grows_bind; [apply grows_add_event|].
  intros _. destruct o; [apply grows_raise | apply grows_ret].
Qed.
End Grows.

Create HintDb grows discriminated.
#[export] Hint Resolve grows_ret grows_raise grows_sys_exit grows_get
  grows_add_log grows_add_event grows_bind grows_try grows_if grows_call
  : grows.
#[export] Hint Extern 1 (grows (logging_info _)) => apply grows_add_log : grows.
#[export] Hint Extern 1 (grows (logging_warning _)) =>
  apply grows_add_log : grows.
#[export] Hint Extern 1 (grows (logging_error _)) =>
  apply grows_add_log : grows.
#[export] Hint Extern 1 (grows (logging_traceback _)) =>
  apply grows_add_log : grows.
#[export] Hint Extern 3 (grows (modify _)) =>
  (apply grows_state; intros; reflexivity) : grows.
#[export] Hint Extern 5 (grows (match ?x with _ => _ end)) =>
  destruct x : grows.

Ltac grows := intros; unfold_blocks; unfold resolve_database_url;
  eauto 80 with grows.

Lemma grows_resolve_database_url environ :
  grows (resolve_database_url environ).
Proof. grows. Qed.

Lemma grows_config_getitem k : grows (config_getitem k).
Proof. grows. Qed.

Lemma grows_create_admin_user w : grows (create_admin_user w).
Proof. grows. Qed.

Lemma grows_configure_extensions w : grows (configure_extensions w).
Proof. grows. Qed.

Lemma grows_initialize_in_app_context w : grows (initialize_in_app_context w).
Proof. unfold initialize_in_app_context. grows. Qed.

(** ** The script of [Full] against the script *)

Section Sim.
Context (aborts : event -> option Z).

(** A statement that records nothing is the same in both. *)
Lemma sim_same {A} (c : M A) : preserves trace c -> sim aborts c c.
Proof.
  intros Hc st. left. split; [reflexivity|]. exists [].
  split; [now rewrite Hc, app_nil_r | constructor].
Qed.

Lemma sim_bind {A B} (gc c : M A) (gk k : A -> M B) :
  sim aborts gc c -> (forall x, sim aborts (gk x) (k x)) ->
  (forall x, grows (k x)) ->
  sim aborts (bind gc gk) (bind c k).
Proof.
  intros Hc Hk Hg st.
  destruct (Hc st) as [[Heq (evs1 & Ht1 & Hf1)]
                      | (code & st' & evs & ev & rest & l
                         & Hrun & Ht & Hf & Ha & Htr & Hlg)].
  - unfold exec, bind in *. rewrite Heq.
    destruct (c st) as [[x|e|n] st1]; simpl in *;
      try (left; split; [reflexivity|]; now exists evs1).
    destruct (Hk x st1) as [[Heq2 (evs2 & Ht2 & Hf2)]
                           | (code & st' & evs & ev & rest & l
                              & Hrun & Ht & Hf & Ha & Htr & Hlg)].
    + left. split; [exact Heq2|]. exists (evs1 ++ evs2). unfold exec in *.
      split; [now rewrite Ht2, Ht1, app_assoc | now apply Forall_app].
    + right. exists code, st', (evs1 ++ evs), ev, rest, l. unfold exec in *.
      repeat split; try assumption.
      * now rewrite Ht, Ht1, !app_assoc.
      * now apply Forall_app.
  - right. unfold exec, bind in *. rewrite Hrun.
    destruct (c st) as [[x|e|n] st1]; simpl in *;
      try (now exists code, st', evs, ev, rest, l).
    destruct (Hg x st1) as (evs' & l' & Ht' & Hl'). unfold exec in *.
    exists code, st', evs, ev, (rest ++ evs'), (l ++ l').
    repeat split; try assumption.
    + now rewrite Ht', Htr, app_assoc.
    + now rewrite Hl', Hlg, app_assoc.
Qed.

Lemma sim_try {A} (gc c : M A) (h : exn -> M A) :
  sim aborts gc c -> (forall e, preserves trace (h e)) ->
  (forall e, grows (h e)) ->
  sim aborts (try_except gc h) (try_except c h).
Proof.
  intros Hc Hp Hg st.
  destruct (Hc st) as [[Heq (evs1 & Ht1 & Hf1)]
                      | (code & st' & evs & ev & rest & l
                         & Hrun & Ht & Hf & Ha & Htr & Hlg)].
  - left. unfold exec, try_except in *. rewrite Heq. split; [reflexivity|].
    destruct (c st) as [[x|e|n] st1]; simpl in *; try (now exists evs1).
    exists evs1. specialize (Hp e st1). unfold exec in Hp.
    split; [now rewrite Hp | assumption].
  - right. unfold exec, try_except in *. rewrite Hrun.
    destruct (c st) as [[x|e|n] st1]; simpl in *;
      try (now exists code, st', evs, ev, rest, l).
    destruct (Hg e st1) as (evs' & l' & Ht' & Hl'). unfold exec in *.
    exists code, st', evs, ev, (rest ++ evs'), (l ++ l').
    repeat split; try assumption.
    + now rewrite Ht', Htr, app_assoc.
    + now rewrite Hl', Hlg, app_assoc.
Qed.

Lemma sim_if {A} (b : bool) (gc1 gc2 c1 c2 : M A) :
  sim aborts gc1 c1 -> sim aborts gc2 c2 ->
  sim aborts (if b then gc1 else gc2) (if b then c1 else c2).
Proof. now destruct b. Qed.

(** A recorded statement: it raises outside [Exception] and the process
    ends there, or it does what it does in the script. *)
Lemma sim_statement {A} ev (gc c : M A) :
  preserves trace c -> preserves logs c ->
  (forall st, gc st = c st) ->
  sim aborts
    (modify (add_event ev) ;;
     match aborts ev with Some code => sys_exit code | None => gc end)
    (modify (add_event ev) ;; c).
Proof.
  intros Ht Hl Hg st.
  assert (He : exec (modify (add_event ev) ;; c) st
               = exec c (add_event ev st)) by reflexivity.
  destruct (aborts ev) as [code|] eqn:Ha.
  - right. exists code, (add_event ev st), [], ev, [], [].
    repeat split; try assumption; try reflexivity.
    + constructor.
    + now rewrite He, Ht, app_nil_r.
    + now rewrite He, Hl, app_nil_r.
  - left. split.
    + unfold bind, modify. apply Hg.
    + exists [ev]. split; [|repeat constructor; assumption].
      now rewrite He, Ht.
Qed.

Lemma sim_call ev o : sim aborts (Full.call aborts ev o) (call ev o).
Proof.
  unfold Full.call, call.
  apply sim_statement; [| |reflexivity]; intros st; now destruct o.
Qed.

Lemma sim_event ev :
  sim aborts (Full.call aborts ev None) (modify (add_event ev)).
Proof.
  intros st.
  destruct (sim_statement ev (ret tt) (ret tt)
              (fun _ => eq_refl) (fun _ => eq_refl) (fun _ => eq_refl) st)
    as [H|H].
  - left. exact H.
  - right. exact H.
Qed.
End Sim.

Section Sim_script.
Context (aborts : event -> option Z).

Lemma sim_import_models r :
  sim aborts (Full.import_models aborts r) (import_models r).
Proof.
  unfold Full.import_models, import_models.
  apply sim_statement; [| |reflexivity];
    intros st; destruct r as [|e []]; reflexivity.
Qed.

Lemma sim_query_first_by_username w u :
  sim aborts (Full.query_first_by_username aborts w u)
             (query_first_by_username w u).
Proof.
  unfold Full.query_first_by_username, query_first_by_username.
  apply sim_statement; [| |reflexivity]; intros st; unfold exec, bind, get;
    destruct (user_bound st); simpl; destruct (w_query_admin w); reflexivity.
Qed.

Lemma sim_session_commit w :
  sim aborts (Full.session_commit aborts w) (session_commit w).
Proof.
  unfold Full.session_commit, session_commit.
  apply sim_statement; [| |reflexivity];
    intros st; destruct (w_commit w); reflexivity.
Qed.

Lemma preserves_trace_config_getitem k : preserves trace (config_getitem k).
Proof.
  intros st. unfold config_getitem, exec, bind, get. simpl.
  now destruct (config st !! k).
Qed.

Lemma preserves_trace_resolve environ :
  preserves trace (resolve_database_url environ).
Proof. intros st. apply resolve_database_url_trace. Qed.

Ltac same :=
  apply sim_same;
  first [ apply preserves_trace_config_getitem
        | apply preserves_trace_resolve
        | intros ?; reflexivity ].

Ltac sim_script :=
  repeat first
    [ apply sim_call | apply sim_event | apply sim_import_models
    | apply sim_query_first_by_username | apply sim_session_commit
    | same
    | apply sim_bind; [ | intros ? | intros ?; grows ]
    | apply sim_try;
        [ | intros ? ?; reflexivity | intros ?; grows ]
    | match goal with
      | |- sim _ (match ?x with _ => _ end) _ => destruct x
      end ].

Lemma sim_import_guard w :
  sim aborts (Full.import_guard aborts w) (import_guard w).
Proof. unfold Full.import_guard, import_guard. sim_script. Qed.

Lemma sim_create_app : sim aborts (Full.create_app aborts) create_app.
Proof. unfold Full.create_app, create_app. sim_script. Qed.

Lemma sim_basic_config environ :
  sim aborts (Full.basic_config aborts environ) (basic_config environ).
Proof. unfold Full.basic_config, basic_config. sim_script. Qed.

Lemma sim_database_config environ :
  sim aborts (Full.database_config aborts environ) (database_config environ).
Proof. unfold Full.database_config, database_config. sim_script. Qed.

Lemma sim_init_database w :
  sim aborts (Full.init_database aborts w) (init_database w).
Proof. unfold Full.init_database, init_database. sim_script. Qed.

Lemma sim_register_health :
  sim aborts (Full.register_health aborts) register_health.
Proof. unfold Full.register_health, register_health. sim_script. Qed.

Lemma sim_test_connection w :
  sim aborts (Full.test_connection aborts w) (test_connection w).
Proof. unfold Full.test_connection, test_connection. sim_script. Qed.

Lemma sim_create_tables w :
  sim aborts (Full.create_tables aborts w) (create_tables w).
Proof. unfold Full.create_tables, create_tables. sim_script. Qed.

Lemma sim_create_admin_user w :
  sim aborts (Full.create_admin_user aborts w) (create_admin_user w).
Proof.
  unfold Full.create_admin_user, create_admin_user,
    Full.session_add, session_add.
  sim_script.
Qed.

Lemma sim_configure_extensions w :
  sim aborts (Full.configure_extensions aborts w) (configure_extensions w).
Proof. unfold Full.configure_extensions, configure_extensions. sim_script. Qed.

Lemma sim_initialize_in_app_context w :
  sim aborts (Full.initialize_in_app_context aborts w)
             (initialize_in_app_context w).
Proof.
  unfold Full.initialize_in_app_context, initialize_in_app_context.
  apply sim_bind; [apply sim_event | intros _ | intros ?; grows].
  apply sim_try; [| intros ? ?; reflexivity | intros ?; grows].
  apply sim_bind; [same | intros _ | intros ?; grows].
  apply sim_bind; [apply sim_test_connection | intros _ | intros ?; grows].
  apply sim_bind; [apply sim_create_tables | intros _ | intros ?; grows].
  apply sim_bind; [apply sim_create_admin_user | intros _ | intros ?; grows].
  apply sim_bind; [apply sim_configure_extensions | intros _ | intros ?; grows].
  same.
Qed.

Lemma sim_railway_simple_app w environ :
  sim aborts (Full.railway_simple_app aborts w environ)
             (railway_simple_app w environ).
Proof.
  unfold Full.railway_simple_app, railway_simple_app.
  apply sim_bind; [same | intros _ | intros ?].
  2:{ pose proof (grows_initialize_in_app_context w). grows. }
  apply sim_bind; [apply sim_import_guard | intros _ | intros ?].
  2:{ pose proof (grows_initialize_in_app_context w). grows. }
  apply sim_bind; [apply sim_create_app | intros _ | intros ?].
  2:{ pose proof (grows_initialize_in_app_context w). grows. }
  apply sim_bind; [apply sim_basic_config | intros _ | intros ?].
  2:{ pose proof (grows_initialize_in_app_context w). grows. }
  apply sim_bind; [apply sim_database_config | intros _ | intros ?].
  2:{ pose proof (grows_initialize_in_app_context w). grows. }
  apply sim_bind; [apply sim_init_database | intros _ | intros ?].
  2:{ pose proof (grows_initialize_in_app_context w). grows. }
  apply sim_bind; [apply sim_register_health | intros _ | intros ?].
  2:{ apply grows_initialize_in_app_context. }
  apply sim_initialize_in_app_context.
Qed.
End Sim_script.

(** A run under the full hierarchy is the run of the script when no
    statement the script attempts raises outside [Exception]; otherwise it
    ends at the first that does, with its status, having attempted the
    statements up to that one and logged a part of what the script logs. *)
Lemma full_run aborts w environ table :
  match first_abort aborts (trace (snd (process_start w environ table))) with
  | None =>
      Full.process_start aborts w environ table = process_start w environ table
  | Some code =>
      exists st' l,
        Full.process_start aborts w environ table = (Exited code, st') /\
        trace st' = cut aborts (trace (snd (process_start w environ table))) /\
        logs (snd (process_start w environ table)) = logs st' ++ l
  end.
Proof.
  unfold Full.process_start, process_start.
  destruct (sim_railway_simple_app aborts w environ (initial_state table))
    as [[Heq (evs & Htr & Hall)]
       | (code & st' & evs & ev & rest & l & Hrun & Htr' & Hall & Hev & Htr & Hl)];
    unfold exec in *.
  - rewrite Htr. simpl. now rewrite (first_abort_none _ _ Hall).
  - rewrite Htr, Htr'. simpl.
    destruct (first_abort_at aborts evs ev code rest Hall Hev) as [-> ->].
    exists st', l. repeat split; assumption.
Qed.

(** ** The last entry of the log is written by a run that reaches its end *)

Section Unready.
Lemma keeps_ret {A} (x : A) : keeps_unready (ret x).
Proof. now intros st. Qed.

Lemma keeps_raise {A} e : keeps_unready (@raise A e).
Proof. now intros st. Qed.

Lemma keeps_sys_exit {A} n : keeps_unready (@sys_exit A n).
Proof. now intros st. Qed.

Lemma keeps_get {Y} (g : state -> Y) : keeps_unready (get g).
Proof. now intros st. Qed.

Lemma keeps_state f :
  (forall st, logs (f st) = logs st) -> keeps_unready (modify f).
Proof. intros Hl st H. unfold exec. simpl. now rewrite Hl. Qed.

Lemma keeps_add_log l : l <> ready -> keeps_unready (modify (add_log l)).
Proof.
  intros Hne st H. unfold exec. simpl. rewrite elem_of_app, list_elem_of_singleton.
  intros [Hin | Heq]; [now apply H | now apply Hne].
Qed.

Lemma keeps_bind {A B} (c : M A) (k : A -> M B) :
  keeps_unready c -> (forall x, keeps_unready (k x)) -> keeps_unready (bind c k).
Proof.
  intros Hc Hk st H. specialize (Hc st H). unfold exec, bind in *.
  destruct (c st) as [[x|e|n] st1]; simpl in *; try assumption.
  now apply (Hk x st1).
Qed.

Lemma keeps_try {A} (c : M A) h :
  keeps_unready c -> (forall e, keeps_unready (h e)) ->
  keeps_unready (try_except c h).
Proof.
  intros Hc Hh st H. specialize (Hc st H). unfold exec, try_except in *.
  destruct (c st) as [[x|e|n] st1]; simpl in *; try assumption.
  now apply (Hh e st1).
Qed.

Lemma keeps_if {A} (b : bool) (c1 c2 : M A) :
  keeps_unready c1 -> keeps_unready c2 -> keeps_unready (if b then c1 else c2).
Proof. now destruct b. Qed.

(** A statement that does not log [ready] has not logged it however it
    ends. *)
Lemma unless_keeps {A} (c : M A) :
  keeps_unready c -> unready_unless_returned c.
Proof.
  intros Hc st H. specialize (Hc st H). now destruct (result c st).
Qed.

(** [ready] is logged by the statement that follows [c], when [c] returns. *)
Lemma unless_then_ready (c : M unit) :
  keeps_unready c ->
  unready_unless_returned (c ;; logging_info "🎉 APPLICATION READY!").
Proof.
  intros Hc st H. specialize (Hc st H). unfold result, exec, bind in *.
  now destruct (c st) as [[x|e|n] st1].
Qed.

Lemma unless_bind {A B} (c : M A) (k : A -> M B) :
  keeps_unready c -> (forall x, unready_unless_returned (k x)) ->
  unready_unless_returned (bind c k).
Proof.
  intros Hc Hk st H. specialize (Hc st H). unfold result, exec, bind in *.
  destruct (c st) as [[x|e|n] st1]; simpl in *; try assumption.
  now apply (Hk x st1).
Qed.

Lemma unless_try {A} (c : M A) h :
  unready_unless_returned c -> (forall e, keeps_unready (h e)) ->
  unready_unless_returned (try_except c h).
Proof.
  intros Hc Hh st H. specialize (Hc st H). unfold result, exec, try_except in *.
  destruct (c st) as [[x|e|n] st1]; simpl in *; try assumption.
  specialize (Hh e st1 Hc). unfold exec in Hh.
  now destruct (h e st1) as [[x|e'|n] st2].
Qed.
End Unready.

Create HintDb unready discriminated.
#[export] Hint Resolve keeps_ret keeps_raise keeps_sys_exit keeps_get
  keeps_bind keeps_try keeps_if : unready.
#[export] Hint Extern 1 (keeps_unready (logging_info _)) =>
  (apply keeps_add_log; unfold ready; discriminate) : unready.
#[export] Hint Extern 1 (keeps_unready (logging_warning _)) =>
  (apply keeps_add_log; discriminate) : unready.
#[export] Hint Extern 1 (keeps_unready (logging_error _)) =>
  (apply keeps_add_log; discriminate) : unready.
#[export] Hint Extern 1 (keeps_unready (logging_traceback _)) =>
  (apply keeps_add_log; discriminate) : unready.
#[export] Hint Extern 3 (keeps_unready (modify _)) =>
  (apply keeps_state; intros; reflexivity) : unready.
#[export] Hint Extern 5 (keeps_unready (match ?x with _ => _ end)) =>
  destruct x : unready.

Ltac unready :=
  intros;
  unfold Full.import_guard, Full.create_app, Full.basic_config,
    Full.database_config, Full.init_database, Full.register_health,
    Full.test_connection, Full.create_tables, Full.import_models,
    Full.create_admin_user, Full.query_first_by_username, Full.session_add,
    Full.session_commit, Full.configure_extensions, Full.call,
    config_getitem, resolve_database_url;
  eauto 80 with unready.

Section Unready_script.
Context (aborts : event -> option Z).

Lemma keeps_import_guard w : keeps_unready (Full.import_guard aborts w).
Proof. unready. Qed.

Lemma keeps_create_app : keeps_unready (Full.create_app aborts).
Proof. unready. Qed.

Lemma keeps_basic_config environ :
  keeps_unready (Full.basic_config aborts environ).
Proof. unready. Qed.

Lemma keeps_database_config environ :
  keeps_unready (Full.database_config aborts environ).
Proof. unready. Qed.

Lemma keeps_init_database w : keeps_unready (Full.init_database aborts w).
Proof. unready. Qed.

Lemma keeps_register_health : keeps_unready (Full.register_health aborts).
Proof. unready. Qed.

Lemma keeps_test_connection w : keeps_unready (Full.test_connection aborts w).
Proof. unready. Qed.

Lemma keeps_create_tables w : keeps_unready (Full.create_tables aborts w).
Proof. unready. Qed.

Lemma keeps_create_admin_user w :
  keeps_unready (Full.create_admin_user aborts w).
Proof. unready. Qed.

Lemma keeps_configure_extensions w :
  keeps_unready (Full.configure_extensions aborts w).
Proof. unready. Qed.

Lemma unless_railway_simple_app w environ :
  unready_unless_returned (Full.railway_simple_app aborts w environ).
Proof.
  unfold Full.railway_simple_app, Full.initialize_in_app_context.
  apply unless_bind; [unready | intros _].
  apply unless_bind; [apply keeps_import_guard | intros _].
  apply unless_bind; [apply keeps_create_app | intros _].
  apply unless_bind; [apply keeps_basic_config | intros _].
  apply unless_bind; [apply keeps_database_config | intros _].
  apply unless_bind; [apply keeps_init_database | intros _].
  apply unless_bind; [apply keeps_register_health | intros _].
  apply unless_bind; [unready | intros _].
  apply unless_try; [| unready].
  apply unless_bind; [unready | intros _].
  apply unless_bind; [apply keeps_test_connection | intros _].
  apply unless_bind; [apply keeps_create_tables | intros _].
  apply unless_bind; [apply keeps_create_admin_user | intros _].
  apply unless_then_ready. apply keeps_configure_extensions.
Qed.

(** A run that does not return has not logged that the application is
    ready. *)
Lemma unready_unless_returned_run w environ table :
  match fst (Full.process_start aborts w environ table) with
  | Returned _ => True
  | _ => ready ∉ logs (snd (Full.process_start aborts w environ table))
  end.
Proof.
  apply (unless_railway_simple_app w environ (initial_state table)).
  simpl. apply not_elem_of_nil.
Qed.
End Unready_script.

(** ** Runs that pass the import guard, under the full hierarchy *)

Lemma unaborted_run aborts w environ table :
  imports_ok w = true ->
  first_abort aborts (startup_trace w table) = None ->
  Full.process_start aborts w environ table = process_start w environ table.
Proof.
  intros Hw Hf. pose proof (full_run aborts w environ table) as H.
  rewrite process_start_trace in H by assumption. now rewrite Hf in H.
Qed.

Lemma aborted_run aborts w environ table code :
  imports_ok w = true ->
  first_abort aborts (startup_trace w table) = Some code ->
  exists st' l,
    Full.process_start aborts w environ table = (Exited code, st') /\
    trace st' = cut aborts (startup_trace w table) /\
    startup_logs w environ table = logs st' ++ l.
Proof.
  intros Hw Hf. pose proof (full_run aborts w environ table) as H.
  rewrite process_start_trace, process_start_logs in H by assumption.
  now rewrite Hf in H.
Qed.

(** ** One step fails *)

Lemma silent_all_ok w :
  imports_ok w = true -> (forall s, silent s w = true) -> w = all_ok.
Proof.
  intros Hw Hs.
  pose proof (Hs DbInit) as H1. pose proof (Hs Probe) as H2.
  pose proof (Hs Tables) as H3. pose proof (Hs Seed) as H4.
  pose proof (Hs Login) as H5. pose proof (Hs Mail) as H6.
  pose proof (Hs Upload) as H7. pose proof (Hs Routes) as H8. clear Hs.
  destruct w as [f1 f2 f3 f4 f5 r f7 f8 f9 f10 f11 f12 f13 f14 f15 f16 f17 f18 f19].
  unfold imports_ok in Hw. simpl in *.
  destruct r; [|discriminate H3].
  repeat match goal with
         | H : _ && _ = true |- _ => apply andb_true_iff in H as [? ?]
         end.
  repeat match goal with
         | H : ok ?o = true |- _ => destruct o; [discriminate H | clear H]
         end.
  reflexivity.
Qed.

Lemma startup_trace_all_ok table :
  startup_trace all_ok table =
    [ EvImportFlask; EvImportProxyFix; EvImportDb; EvFlask; EvSecretKey;
      EvProxyFix; EvDbConfig; EvDbInitApp; EvRouteHealth; EvAppContext;
      EvConnect; EvImportModels; EvCreateAll; EvQueryAdmin ]
    ++ match find (has_username "edson.lemes") table with
       | Some _ => []
       | None => [EvNewUser; EvSetPassword; EvSessionAdd; EvCommit]
       end
    ++ [ EvImportFlaskLogin; EvImportFlaskMail; EvLoginManager; EvMailConfig;
         EvMailInit; EvMakedirs (CStr "/tmp/uploads"); EvImportRoutes ].
Proof.
  unfold startup_trace, seeding_events. simpl.
  now destruct (find (has_username "edson.lemes") table).
Qed.

Lemma clean_run_all_ok table : clean_run all_ok table = true.
Proof.
  unfold clean_run. simpl.
  now destruct (bool_decide (is_Some (find (has_username "edson.lemes") table))).
Qed.

Lemma in_startup_logs entry w environ table :
  entry ∈ init_database_logs w ++ test_connection_logs w ++ tables_logs w
          ++ seeding_logs w (bound_after_import (w_import_models w)) table
          ++ extension_logs w ->
  entry ∈ startup_logs w environ table.
Proof. unfold startup_logs. rewrite !elem_of_app. tauto. Qed.

(** * The claims and properties that turn on what a call may raise *)

(** ** C1, amended: what the failure of one step does to the later ones *)

(** C1, amended: in a run that passes the import guard and in which only
    the step [s] fails, the imports of lines 116-117 counted with the login
    manager and the mail configuration.  When [s] raises an instance of
    [Exception], the exception is caught and logged with the message of the
    step's [try], and the run goes on to its end; after a database init, a
    connection probe, a table creation or an admin seeding every later step
    is executed; after a login-manager, mail or upload-directory step the
    traceback is logged too and no later step is executed, the four steps
    of the extension block sharing one [try].  When a statement of [s]
    raises outside [Exception] instead, nothing catches it: the process ends
    there with that status, no error is logged and no later step is
    executed. *)
Theorem failure_isolation s w environ table :
  imports_ok w = true ->
  (forall t, t <> s -> silent t w = true) ->
  (forall e,
     raised_by s w table = Some e ->
     let run := Full.process_start no_aborts w environ table in
     fst run = Returned tt /\
     Log ERROR (failure_message s e) ∈ logs (snd run) /\
     (own_guard s = true ->
      forall s', step_before s s' = true ->
                 executed s' (trace (snd run)) = true) /\
     (own_guard s = false ->
      LogTraceback e ∈ logs (snd run) /\
      forall s', step_before s s' = true ->
                 executed s' (trace (snd run)) = false)) /\
  (silent s w = true ->
   forall site code,
     site ∈ step_sites s -> site_reached site table = true ->
     let run := Full.process_start (abort_at site code) w environ table in
     fst run = Exited code /\
     error_messages (logs (snd run)) = [] /\
     forall s', step_before s s' = true ->
                executed s' (trace (snd run)) = false).
Proof.
  intros Hw Hsil. split.
  - intros e Hr run. subst run.
    change (Full.process_start no_aborts w environ table)
      with (process_start w environ table).
    rewrite process_start_blocks by assumption. cbn [fst snd].
    rewrite <- process_start_final by assumption.
    rewrite process_start_logs, process_start_trace by assumption.
    split; [reflexivity|].
    pose proof (Hsil DbInit) as H1. pose proof (Hsil Probe) as H2.
    pose proof (Hsil Tables) as H3. pose proof (Hsil Seed) as H4.
    pose proof (Hsil Login) as H5. pose proof (Hsil Mail) as H6.
    pose proof (Hsil Upload) as H7. pose proof (Hsil Routes) as H8.
    clear Hsil Hw.
    destruct w as [f1 f2 f3 f4 f5 r f7 f8 f9 f10 f11 f12 f13 f14 f15 f16 f17 f18 f19].
    destruct s;
      repeat match goal with
             | H : ?a <> ?a -> _ |- _ => clear H
             | H : ?a <> ?b -> _ |- _ => specialize (H ltac:(discriminate))
             end;
      simpl in *;
      repeat match goal with
             | H : _ && _ = true |- _ => apply andb_true_iff in H as [? ?]
             | H : match ?r with ImportOk => _ | ImportFailed _ _ => _ end = true
               |- _ => destruct r; [|discriminate H]
             end;
      repeat match goal with
             | H : ok ?o = true |- _ => destruct o; [discriminate H | clear H]
             end.
    all: try destruct (find (has_username "edson.lemes") table) eqn:Hf.
    all: repeat match type of Hr with
                | context [?o] =>
                    is_var o;
                    match type of o with
                    | option exn => destruct o
                    | import_result => destruct o
                    end
                end;
           simpl in Hr; try discriminate Hr; inversion Hr; subst; clear Hr.
    all: split;
           [ apply in_startup_logs;
             unfold init_database_logs, test_connection_logs, tables_logs,
               seeding_logs, extension_logs;
             simpl; rewrite ?Hf; apply list_elem_of_In; simpl; auto 20
           | split; intros Hg; try discriminate Hg ].
    all: try (split;
                [ apply in_startup_logs;
                  unfold init_database_logs, test_connection_logs,
                    tables_logs, seeding_logs, extension_logs;
                  simpl; rewrite ?Hf; apply list_elem_of_In; simpl;
                  auto 20 |]).
    all: intros s' Hb; rewrite executed_startup;
           destruct s'; try discriminate Hb; reflexivity.
  - intros Hs site code Hsite Hreach run. subst run.
    assert (Hall : w = all_ok).
    { apply silent_all_ok; [assumption|].
      intros t. destruct t, s; first [exact Hs | apply Hsil; discriminate]. }
    subst w. clear Hw Hsil Hs.
    assert (Hfa : first_abort (abort_at site code) (startup_trace all_ok table)
                  = Some code).
    { rewrite startup_trace_all_ok.
      destruct s; simpl in Hsite;
        repeat (apply elem_of_cons in Hsite as [-> | Hsite]);
        try (now apply elem_of_nil in Hsite);
        unfold site_reached in Hreach;
        destruct (find (has_username "edson.lemes") table);
        try (vm_compute in Hreach; discriminate Hreach);
        vm_compute; reflexivity. }
    destruct (aborted_run _ all_ok environ _ _ eq_refl Hfa)
      as (st' & l & -> & Htr & Hl).
    cbn [fst snd]. split; [reflexivity|]. split.
    + pose proof (proj2 (errors_startup_logs all_ok environ table)
                    (clean_run_all_ok table)) as He.
      rewrite Hl in He. now apply error_messages_app in He.
    + intros s' Hb. rewrite Htr, startup_trace_all_ok.
      destruct s; simpl in Hsite;
        repeat (apply elem_of_cons in Hsite as [-> | Hsite]);
        try (now apply elem_of_nil in Hsite);
        unfold site_reached in Hreach;
        destruct (find (has_username "edson.lemes") table);
        try (vm_compute in Hreach; discriminate Hreach);
        destruct s'; try discriminate Hb; vm_compute; reflexivity.
Qed.

Lemma failure_isolation_witness :
  let w := inject Probe (Exn "OperationalError" "no database") in
  (Log ERROR "❌ Database connection failed: no database"
     ∈ logs (snd (Full.process_start no_aborts w ∅ [])) /\
   executed Routes (trace (snd (Full.process_start no_aborts w ∅ []))) = true)
  /\
  (fst (Full.process_start (abort_at EvCreateAll 130) all_ok ∅ [])
     = Exited 130 /\
   executed Seed
     (trace (snd (Full.process_start (abort_at EvCreateAll 130) all_ok ∅ [])))
     = false).
Proof.
  intros w. split.
  - destruct (failure_isolation Probe w ∅ [] eq_refl) as [HA _].
    { intros t Ht. destruct t; try reflexivity. congruence. }
    destruct (HA _ eq_refl) as (_ & Hlog & Hown & _).
    split; [exact Hlog | exact (Hown eq_refl Routes eq_refl)].
  - destruct (failure_isolation Tables all_ok ∅ [] eq_refl) as [_ HB].
    { intros t _. now destruct t. }
    destruct (HB eq_refl EvCreateAll 130) as (H1 & _ & H3).
    + apply list_elem_of_further, list_elem_of_here.
    + reflexivity.
    + split; [exact H1 | exact (H3 Seed eq_refl)].
Defined.

(** ** Runs that a statement interrupts *)

(** [db.create_all()] raising [KeyboardInterrupt]: the process ends there,
    nothing is logged at level ERROR, the seeding is not reached and the
    table is left empty. *)
Example interrupted_run :
  let run := Full.process_start (abort_at EvCreateAll 130) all_ok ∅ [] in
  fst run = Exited 130 /\
  error_messages (logs (snd run)) = [] /\
  executed Seed (trace (snd run)) = false /\
  rows (snd run) = [].
Proof. vm_compute. repeat split. Qed.

(** X2: in a run that passes the import guard, whatever instances of
    [Exception] the calls raise, the run returns and its last log entry says
    that the application is ready, unless a statement it attempts raises
    outside [Exception]: then the process ends at the first such statement
    with its status, and that entry is never logged. *)
Theorem ready_logged_unless_interrupted aborts w environ table :
  imports_ok w = true ->
  match first_abort aborts (startup_trace w table) with
  | None =>
      fst (Full.process_start aborts w environ table) = Returned tt /\
      last (logs (snd (Full.process_start aborts w environ table)))
        = Some (Log INFO "🎉 APPLICATION READY!")
  | Some code =>
      fst (Full.process_start aborts w environ table) = Exited code /\
      Log INFO "🎉 APPLICATION READY!"
        ∉ logs (snd (Full.process_start aborts w environ table))
  end.
Proof.
  intros Hw. destruct (first_abort aborts (startup_trace w table)) eqn:Hf.
  - destruct (aborted_run aborts w environ table _ Hw Hf)
      as (st' & l & Hrun & _ & _).
    pose proof (unready_unless_returned_run aborts w environ table) as H.
    rewrite Hrun in *. split; [reflexivity | exact H].
  - rewrite (unaborted_run aborts w environ table Hw Hf).
    rewrite process_start_blocks by assumption. cbn [fst snd].
    rewrite <- process_start_final by assumption.
    rewrite process_start_logs by assumption. split; [reflexivity|].
    unfold startup_logs. rewrite !app_assoc. apply last_snoc.
Qed.

Lemma ready_logged_unless_interrupted_witness :
  let w := mkWorld None None None
             (Some (Exn "RuntimeError" "init")) (Some (Exn "OperationalError" "down"))
             (ImportFailed (Exn "ImportError" "models") false)
             None None None None None None
             (Some (Exn "ModuleNotFoundError" "flask_login"))
             None None None None None None in
  (fst (Full.process_start no_aborts w ∅ []) = Returned tt /\
   last (logs (snd (Full.process_start no_aborts w ∅ [])))
     = Some (Log INFO "🎉 APPLICATION READY!")) /\
  (fst (Full.process_start (abort_at EvConnect 130) w ∅ []) = Exited 130 /\
   Log INFO "🎉 APPLICATION READY!"
     ∉ logs (snd (Full.process_start (abort_at EvConnect 130) w ∅ []))).
Proof.
  intros w. split.
  - exact (ready_logged_unless_interrupted no_aborts w ∅ [] eq_refl).
  - exact (ready_logged_unless_interrupted (abort_at EvConnect 130) w ∅ []
             eq_refl).
Defined.

(** X3: a run that passes the import guard returns with no ERROR entry in
    its log exactly when no call it attempts raises, neither an instance of
    [Exception] nor anything outside it. *)
Theorem clean_return_iff_clean_run aborts w environ table :
  imports_ok w = true ->
  (fst (Full.process_start aborts w environ table) = Returned tt /\
   error_messages (logs (snd (Full.process_start aborts w environ table))) = [])
  <->
  (clean_run w table = true /\
   first_abort aborts (startup_trace w table) = None).
Proof.
  intros Hw. destruct (first_abort aborts (startup_trace w table)) eqn:Hf.
  - destruct (aborted_run aborts w environ table _ Hw Hf)
      as (st' & l & Hrun & _ & _).
    rewrite Hrun. split; intros [H1 H2]; discriminate.
  - rewrite (unaborted_run aborts w environ table Hw Hf).
    rewrite process_start_blocks by assumption. cbn [fst snd].
    rewrite <- process_start_final by assumption.
    rewrite process_start_logs by assumption.
    rewrite errors_startup_logs. tauto.
Qed.

Lemma clean_return_iff_clean_run_witness :
  (fst (Full.process_start no_aborts all_ok ∅ []) = Returned tt /\
   error_messages (logs (snd (Full.process_start no_aborts all_ok ∅ []))) = [])
  <->
  (clean_run all_ok [] = true /\
   first_abort no_aborts (startup_trace all_ok []) = None).
Proof. apply (clean_return_iff_clean_run no_aborts all_ok ∅ []). reflexivity. Defined.

(** X4: when a run that passes the import guard returns and its log has no
    ERROR entry, every step was executed, the login view and the upload
    folder are configured, and the table holds an admin account. *)
Theorem clean_return_means_fully_started aborts w environ table :
  imports_ok w = true ->
  fst (Full.process_start aborts w environ table) = Returned tt ->
  error_messages (logs (snd (Full.process_start aborts w environ table))) = [] ->
  (forall s,
     executed s (trace (snd (Full.process_start aborts w environ table))) = true)
  /\ login_view (snd (Full.process_start aborts w environ table)) = Some "login"
  /\ upload_folder (snd (Full.process_start aborts w environ table)) =
       Some (CStr "/tmp/uploads")
  /\ (1 <= count_username "edson.lemes"
             (rows (snd (Full.process_start aborts w environ table))))%nat.
Proof.
  intros Hw. destruct (first_abort aborts (startup_trace w table)) eqn:Hf.
  - destruct (aborted_run aborts w environ table _ Hw Hf)
      as (st' & l & Hrun & _ & _).
    rewrite Hrun. discriminate.
  - rewrite (unaborted_run aborts w environ table Hw Hf). intros _.
    now apply script_error_free_fully_started.
Qed.

Lemma clean_return_means_fully_started_witness :
  (1 <= count_username "edson.lemes"
          (rows (snd (Full.process_start no_aborts all_ok ∅ []))))%nat.
Proof.
  apply (clean_return_means_fully_started no_aborts all_ok ∅ []); reflexivity.
Defined.
